(** * CHIRP service discovery: the Manager of [src/CHIRP/Manager.cpp]

    A shallow embedding of the Manager state machine: the two service
    orderings, the three [std::set] members, the public registration
    operations, and the receive loop [Manager::Run].  Mutexes are leaf locks
    that are never held across two members, so every operation is modelled as
    one atomic step on the Manager; what it does to the outside world (a
    broadcast handed to the sender, a detached callback thread) is recorded,
    in program order, in a list of events. *)

From Stdlib Require Import List Bool Arith NArith Lia.
From Stdlib Require Import Strings.Byte.
Import ListNotations.

Local Open Scope N_scope.
Local Open Scope list_scope.

(** ** Three-way comparison ([<=>], [std::is_lt], [std::is_gt]) *)

Definition is_lt (ord : comparison) : bool :=
  match ord with Lt => true | _ => false end.

Definition is_gt (ord : comparison) : bool :=
  match ord with Gt => true | _ => false end.

(** ** MD5Hash *)

(** Modelled from the spec: the hash type itself lives in a header that is
    not part of the sources at hand.  It is "16 opaque bytes ... compared
    lexicographically", which is what [<=>] and [!=] on a byte array do. *)
Definition MD5Hash : Type := list byte.

Fixpoint MD5Hash_compare (a b : MD5Hash) : comparison :=
  match a, b with
  | [], [] => Eq
  | [], _ :: _ => Lt
  | _ :: _, [] => Gt
  | x :: a', y :: b' =>
      match N.compare (Byte.to_N x) (Byte.to_N y) with
      | Eq => MD5Hash_compare a' b'
      | Lt => Lt
      | Gt => Gt
      end
  end.

(** [a != b] on hashes. *)
Definition MD5Hash_neq (a b : MD5Hash) : bool :=
  match MD5Hash_compare a b with Eq => false | _ => true end.

(** ** Protocol enumerations *)

(** Modelled from the spec: the enumeration header is not part of the sources
    at hand.  The spec names the service kinds CONTROL, HEARTBEAT, MONITORING
    and DATA, each with a stable one-byte tag; the tags are numbered in that
    order from 1. *)
Inductive ServiceIdentifier : Type :=
| CONTROL
| HEARTBEAT
| MONITORING
| DATA.

(** Modelled from the spec: message types with wire tags 1 = REQUEST,
    2 = OFFER, 3 = LEAVING. *)
Inductive MessageType : Type :=
| REQUEST
| OFFER
| LEAVING.

(** Modelled from the spec: [std::to_underlying] on a service identifier, the
    "stable 1-byte numeric tag" of each kind.  The orderings below use the
    tags only through their order, which is that of the enumeration. *)
Definition to_underlying (id : ServiceIdentifier) : N :=
  match id with
  | CONTROL => 1
  | HEARTBEAT => 2
  | MONITORING => 3
  | DATA => 4
  end.

(** [a == b] on service identifiers. *)
Definition ServiceIdentifier_eqb (a b : ServiceIdentifier) : bool :=
  match a, b with
  | CONTROL, CONTROL | HEARTBEAT, HEARTBEAT
  | MONITORING, MONITORING | DATA, DATA => true
  | _, _ => false
  end.

(** A port is a [uint16]; only its order and equality are used here. *)
Definition Port : Type := N.

(** ** The less-than interface of ordered containers *)

Class Less (T : Type) : Type := less : T -> T -> bool.

(** What [std::set] requires of its comparator. *)
Class StrictWeakOrder (T : Type) {L : Less T} : Prop := {
  less_irrefl : forall x : T, less x x = false;
  less_trans : forall x y z : T,
      less x y = true -> less y z = true -> less x z = true;
  less_equiv_eq : forall x y : T,
      less x y = false -> less y x = false ->
      forall z : T, less x z = less y z /\ less z x = less z y
}.

(** ** RegisteredService *)

Module RegisteredService.

Record t : Type := Build {
  identifier : ServiceIdentifier;
  port : Port
}.

(** [RegisteredService::operator<] *)
Definition lt (self other : t) : bool :=
  (* Sort first by service id *)
  let ord_id :=
    N.compare (to_underlying (identifier self))
              (to_underlying (identifier other)) in
  if is_lt ord_id then true
  else if is_gt ord_id then false
  else (* Then by port *)
    N.ltb (port self) (port other).

End RegisteredService.

#[export] Instance RegisteredService_Less : Less RegisteredService.t :=
  RegisteredService.lt.

(** ** DiscoveredService *)

(** The sender's IP address, as the number it denotes. *)
Definition Address : Type := N.

Module DiscoveredService.

Record t : Type := Build {
  address : Address;
  name_hash : MD5Hash;
  identifier : ServiceIdentifier;
  port : Port
}.

(** [DiscoveredService::operator<] *)
Definition lt (self other : t) : bool :=
  (* Ignore IP when sorting, we only care about the name *)
  let ord_md5 := MD5Hash_compare (name_hash self) (name_hash other) in
  if is_lt ord_md5 then true
  else if is_gt ord_md5 then false
  else
    (* Same as RegisteredService::operator< *)
    let ord_id :=
      N.compare (to_underlying (identifier self))
                (to_underlying (identifier other)) in
    if is_lt ord_id then true
    else if is_gt ord_id then false
    else N.ltb (port self) (port other).

End DiscoveredService.

#[export] Instance DiscoveredService_Less : Less DiscoveredService.t :=
  DiscoveredService.lt.

(** ** Callback entries *)

(** A [std::pair<DiscoverCallback*, void*>]: two pointers, each modelled by
    its address; pairs are ordered lexicographically. *)
Definition CallbackEntry : Type := (N * N)%type.

Definition CallbackEntry_lt (a b : CallbackEntry) : bool :=
  if N.ltb (fst a) (fst b) then true
  else if N.ltb (fst b) (fst a) then false
  else N.ltb (snd a) (snd b).

#[export] Instance CallbackEntry_Less : Less CallbackEntry := CallbackEntry_lt.

(** ** [std::set] as a list kept in ascending order *)

Section StdSet.

Context {T : Type} {L : Less T}.

(** [contains]: the search stops as soon as the key sorts before the
    element under inspection. *)
Fixpoint set_contains (s : list T) (key : T) : bool :=
  match s with
  | [] => false
  | x :: s' =>
      if less key x then false
      else if less x key then set_contains s' key
      else true
  end.

(** [insert]: the new set and whether the value was actually inserted. *)
Fixpoint set_insert (s : list T) (value : T) : list T * bool :=
  match s with
  | [] => ([value], true)
  | x :: s' =>
      if less value x then (value :: x :: s', true)
      else if less x value then
        let (r, inserted) := set_insert s' value in (x :: r, inserted)
      else (x :: s', false)
  end.

(** [erase]: the new set and the number of elements removed. *)
Fixpoint set_erase (s : list T) (key : T) : list T * N :=
  match s with
  | [] => ([], 0)
  | x :: s' =>
      if less key x then (x :: s', 0)
      else if less x key then
        let (r, count) := set_erase s' key in (x :: r, count)
      else (s', 1)
  end.

(** Whether [x] sorts before the first element of [s], if there is one. *)
Definition above (x : T) (s : list T) : bool :=
  match s with
  | [] => true
  | y :: _ => less x y
  end.

(** The representation invariant: strictly ascending. *)
Fixpoint set_sorted (s : list T) : bool :=
  match s with
  | [] => true
  | x :: s' =>
      match s' with
      | [] => true
      | y :: _ => less x y && set_sorted s'
      end
  end.

End StdSet.

(** ** Messages and the wire codec *)

Variant DecodeError : Type := MkDecodeError.

Module Message.

Record t : Type := Build {
  GetType : MessageType;
  GetGroupHash : MD5Hash;
  GetNameHash : MD5Hash;
  GetServiceIdentifier : ServiceIdentifier;
  GetPort : Port
}.

(** Modelled from the spec: the codec is not part of the sources at hand.
    A datagram has 42 bytes: the magic "CHIRP" and version byte 1, the
    message type tag, the group hash, the name hash, the service tag, and
    the port in network byte order. *)
Definition MAGIC : list byte := [x43; x48; x49; x52; x50; x01].

(** Modelled from the spec: the fixed length of a datagram. *)
Definition LENGTH : nat := 42.

(** Modelled from the spec: the wire tag of a message type. *)
Definition type_tag (type : MessageType) : byte :=
  match type with REQUEST => x01 | OFFER => x02 | LEAVING => x03 end.

(** Modelled from the spec: the message type of a wire tag, if any. *)
Definition type_of_tag (b : byte) : option MessageType :=
  match Byte.to_N b with
  | 1 => Some REQUEST
  | 2 => Some OFFER
  | 3 => Some LEAVING
  | _ => None
  end.

(** Modelled from the spec: the wire tag of a service kind. *)
Definition service_tag (id : ServiceIdentifier) : byte :=
  match id with
  | CONTROL => x01 | HEARTBEAT => x02 | MONITORING => x03 | DATA => x04
  end.

(** Modelled from the spec: the service kind of a wire tag, if any. *)
Definition service_of_tag (b : byte) : option ServiceIdentifier :=
  match Byte.to_N b with
  | 1 => Some CONTROL
  | 2 => Some HEARTBEAT
  | 3 => Some MONITORING
  | 4 => Some DATA
  | _ => None
  end.

(** The low byte of a number. *)
Definition byte_of_N (n : N) : byte :=
  match Byte.of_N (n mod 256) with Some b => b | None => x00 end.

(** Equality of byte strings. *)
Fixpoint bytes_eqb (a b : list byte) : bool :=
  match a, b with
  | [], [] => true
  | x :: a', y :: b' => Byte.eqb x y && bytes_eqb a' b'
  | _, _ => false
  end.

(** Modelled from the spec: [Assemble(msg) -> bytes[42]]. *)
Definition Assemble (msg : t) : list byte :=
  MAGIC ++ [type_tag (GetType msg)]
        ++ GetGroupHash msg ++ GetNameHash msg
        ++ [service_tag (GetServiceIdentifier msg);
            byte_of_N (GetPort msg / 256); byte_of_N (GetPort msg)].

(** Modelled from the spec: [Parse(bytes) -> msg], which fails with a
    [DecodeError] on a wrong length, a wrong magic or version, or an
    unknown message type or service tag. *)
Definition Parse (content : list byte) : DecodeError + t :=
  if negb (Nat.eqb (length content) LENGTH) then inl MkDecodeError
  else if negb (bytes_eqb (firstn 6 content) MAGIC) then inl MkDecodeError
  else
    match type_of_tag (nth 6 content x00),
          service_of_tag (nth 39 content x00) with
    | Some type, Some id =>
        inr {| GetType := type;
               GetGroupHash := firstn 16 (skipn 7 content);
               GetNameHash := firstn 16 (skipn 23 content);
               GetServiceIdentifier := id;
               GetPort := Byte.to_N (nth 40 content x00) * 256
                          + Byte.to_N (nth 41 content x00) |}
    | _, _ => inl MkDecodeError
    end.

End Message.

(** What [RecvBroadcast] yields: the sender's address and the payload. *)
Record BroadcastMessage : Type := {
  ip : Address;
  content : list byte
}.

(** ** Effects *)

(** What an operation does to the outside world.  [SendBroadcast msg] is the
    call [sender_.SendBroadcast] on the assembled [msg]; [SpawnCallback] is
    the detached thread started on one callback entry. *)
Inductive Event : Type :=
| SendBroadcast (msg : Message.t)
| SpawnCallback (callback_data : CallbackEntry)
                (service : DiscoveredService.t) (departing : bool).

(** ** The Manager *)

Record Manager : Type := {
  group_hash_ : MD5Hash;
  name_hash_ : MD5Hash;
  registered_services_ : list RegisteredService.t;
  discovered_services_ : list DiscoveredService.t;
  discover_callbacks_ : list CallbackEntry;
  run_thread_ : bool  (* whether a receive thread is joinable *)
}.

(** The constructor, applied to the hashes of the group and host names. *)
Definition Manager_new (group_hash name_hash : MD5Hash) : Manager :=
  {| group_hash_ := group_hash;
     name_hash_ := name_hash;
     registered_services_ := [];
     discovered_services_ := [];
     discover_callbacks_ := [];
     run_thread_ := false |}.

Definition set_registered_services (s : list RegisteredService.t)
           (m : Manager) : Manager :=
  {| group_hash_ := group_hash_ m;
     name_hash_ := name_hash_ m;
     registered_services_ := s;
     discovered_services_ := discovered_services_ m;
     discover_callbacks_ := discover_callbacks_ m;
     run_thread_ := run_thread_ m |}.

Definition set_discovered_services (s : list DiscoveredService.t)
           (m : Manager) : Manager :=
  {| group_hash_ := group_hash_ m;
     name_hash_ := name_hash_ m;
     registered_services_ := registered_services_ m;
     discovered_services_ := s;
     discover_callbacks_ := discover_callbacks_ m;
     run_thread_ := run_thread_ m |}.

Definition set_discover_callbacks (s : list CallbackEntry)
           (m : Manager) : Manager :=
  {| group_hash_ := group_hash_ m;
     name_hash_ := name_hash_ m;
     registered_services_ := registered_services_ m;
     discovered_services_ := discovered_services_ m;
     discover_callbacks_ := s;
     run_thread_ := run_thread_ m |}.

Definition set_run_thread (joinable : bool) (m : Manager) : Manager :=
  {| group_hash_ := group_hash_ m;
     name_hash_ := name_hash_ m;
     registered_services_ := registered_services_ m;
     discovered_services_ := discovered_services_ m;
     discover_callbacks_ := discover_callbacks_ m;
     run_thread_ := joinable |}.

(** ** A monad for member functions: Manager state, events, exceptions *)

Inductive Outcome (A : Type) : Type :=
| Returned (a : A)
| Thrown (error : DecodeError).

Arguments Returned {A} a.
Arguments Thrown {A} error.

Definition M (A : Type) : Type :=
  Manager -> Outcome A * Manager * list Event.

Definition ret {A : Type} (a : A) : M A :=
  fun this => (Returned a, this, []).

Definition bind {A B : Type} (c : M A) (k : A -> M B) : M B :=
  fun this =>
    match c this with
    | (Returned a, this1, events1) =>
        match k a this1 with
        | (r, this2, events2) => (r, this2, events1 ++ events2)
        end
    | (Thrown error, this1, events1) => (Thrown error, this1, events1)
    end.

Notation "x <- c ;; k" := (bind c (fun x => k))
  (at level 61, c at next level, right associativity).
Notation "c ;; k" := (bind c (fun _ => k))
  (at level 61, right associativity).

Definition get : M Manager :=
  fun this => (Returned this, this, []).

Definition modify (f : Manager -> Manager) : M unit :=
  fun this => (Returned tt, f this, []).

Definition emit (e : Event) : M unit :=
  fun this => (Returned tt, this, [e]).

Definition throw {A : Type} (error : DecodeError) : M A :=
  fun this => (Thrown error, this, []).

Definition try_catch {A : Type} (body : M A) (handler : DecodeError -> M A)
  : M A :=
  fun this =>
    match body this with
    | (Returned a, this1, events1) => (Returned a, this1, events1)
    | (Thrown error, this1, events1) =>
        match handler error this1 with
        | (r, this2, events2) => (r, this2, events1 ++ events2)
        end
    end.

(** A range-based [for] loop over a container snapshot. *)
Fixpoint for_each {A : Type} (range : list A) (body : A -> M unit) : M unit :=
  match range with
  | [] => ret tt
  | x :: range' => body x ;; for_each range' body
  end.

(** Projections of a run. *)
Definition result_of {A : Type} (r : Outcome A * Manager * list Event)
  : Outcome A := fst (fst r).
Definition state_of {A : Type} (r : Outcome A * Manager * list Event)
  : Manager := snd (fst r).
Definition events_of {A : Type} (r : Outcome A * Manager * list Event)
  : list Event := snd r.


(** ** Member functions *)

(** [Manager::SendMessage] *)
Definition SendMessage (type : MessageType) (service : RegisteredService.t)
  : M unit :=
  this <- get ;;
  let asm_msg :=
    Message.Build type (group_hash_ this) (name_hash_ this)
                  (RegisteredService.identifier service)
                  (RegisteredService.port service) in
  emit (SendBroadcast asm_msg).

(** [Manager::RegisterService] *)
Definition RegisterService (service : RegisteredService.t) : M bool :=
  this <- get ;;
  let insert_ret := set_insert (registered_services_ this) service in
  modify (set_registered_services (fst insert_ret)) ;;
  let actually_inserted := snd insert_ret in
  (if actually_inserted then SendMessage OFFER service else ret tt) ;;
  ret actually_inserted.

(** [Manager::UnregisterService] *)
Definition UnregisterService (service : RegisteredService.t) : M bool :=
  this <- get ;;
  let erase_ret := set_erase (registered_services_ this) service in
  modify (set_registered_services (fst erase_ret)) ;;
  let actually_erased := if N.ltb 0 (snd erase_ret) then true else false in
  (if actually_erased then SendMessage LEAVING service else ret tt) ;;
  ret actually_erased.

(** The loop of [Manager::UnregisterServices], before the set is cleared. *)
Definition UnregisterServices_sweep : M unit :=
  this <- get ;;
  for_each (registered_services_ this)
           (fun service => SendMessage LEAVING service).

(** [Manager::UnregisterServices] *)
Definition UnregisterServices : M unit :=
  UnregisterServices_sweep ;;
  modify (set_registered_services []).

(** [Manager::GetRegisteredServices] *)
Definition GetRegisteredServices : M (list RegisteredService.t) :=
  this <- get ;;
  ret (registered_services_ this).

(** [Manager::RegisterDiscoverCallback] *)
Definition RegisterDiscoverCallback (callback data : N) : M bool :=
  this <- get ;;
  let insert_ret := set_insert (discover_callbacks_ this) (callback, data) in
  modify (set_discover_callbacks (fst insert_ret)) ;;
  (* Return if actually inserted *)
  ret (snd insert_ret).

(** [Manager::UnregisterDiscoverCallback] *)
Definition UnregisterDiscoverCallback (callback data : N) : M bool :=
  this <- get ;;
  let erase_ret := set_erase (discover_callbacks_ this) (callback, data) in
  modify (set_discover_callbacks (fst erase_ret)) ;;
  (* Return if actually erased *)
  ret (N.ltb 0 (snd erase_ret)).

(** [Manager::UnregisterDiscoverCallbacks] *)
Definition UnregisterDiscoverCallbacks : M unit :=
  modify (set_discover_callbacks []).

(** [Manager::GetDiscoveredServices] *)
Definition GetDiscoveredServices : M (list DiscoveredService.t) :=
  this <- get ;;
  ret (discovered_services_ this).

(** [Manager::Start]: from now on a receive thread is joinable. *)
Definition Start : M unit :=
  modify (set_run_thread true).

(** The first half of the destructor: request the stop and, if the receive
    thread is joinable, join it. *)
Definition stop_run_thread : M unit :=
  this <- get ;;
  if run_thread_ this then modify (set_run_thread false) else ret tt.

(** [Manager::~Manager] *)
Definition Manager_destroy : M unit :=
  (* First stop Run function *)
  stop_run_thread ;;
  (* Now unregister all services *)
  UnregisterServices.

(** Decoding a payload, [Message(AssembledMessage(raw_msg.content))], throws
    on a malformed datagram. *)
Definition Message_of_content (content : list byte) : M Message.t :=
  match Message.Parse content with
  | inl error => throw error
  | inr chirp_msg => ret chirp_msg
  end.

(** The callback loop of the OFFER and LEAVING cases. *)
Definition spawn_callbacks (service : DiscoveredService.t) (departing : bool)
  : M unit :=
  this <- get ;;
  for_each (discover_callbacks_ this)
           (fun callback_data =>
              emit (SpawnCallback callback_data service departing)).

(** The [switch] of [Manager::Run]. *)
Definition Run_dispatch (type : MessageType)
           (discovered_service : DiscoveredService.t) : M unit :=
  match type with
  | REQUEST =>
      let service_id := DiscoveredService.identifier discovered_service in
      this <- get ;;
      (* Replay OFFERs for registered services with same service identifier *)
      for_each (registered_services_ this)
               (fun service =>
                  if ServiceIdentifier_eqb
                       (RegisteredService.identifier service) service_id
                  then SendMessage OFFER service
                  else ret tt)
  | OFFER =>
      this <- get ;;
      if negb (set_contains (discovered_services_ this) discovered_service)
      then
        modify (set_discovered_services
                  (fst (set_insert (discovered_services_ this)
                                   discovered_service))) ;;
        spawn_callbacks discovered_service false
      else ret tt
  | LEAVING =>
      this <- get ;;
      if set_contains (discovered_services_ this) discovered_service
      then
        modify (set_discovered_services
                  (fst (set_erase (discovered_services_ this)
                                  discovered_service))) ;;
        spawn_callbacks discovered_service true
      else ret tt
  end.

(** One turn of the [while] loop of [Manager::Run], on the datagram that
    [RecvBroadcast] returned. *)
Definition Run_iteration (raw_msg : BroadcastMessage) : M unit :=
  try_catch
    (chirp_msg <- Message_of_content (content raw_msg) ;;
     this <- get ;;
     if MD5Hash_neq (Message.GetGroupHash chirp_msg) (group_hash_ this)
     then (* Broadcast from different group, ignore *) ret tt
     else if MD5Hash_neq (Message.GetNameHash chirp_msg) (name_hash_ this)
     then (* Broadcast from self, ignore *) ret tt
     else
       let discovered_service :=
         DiscoveredService.Build (ip raw_msg)
                                 (Message.GetNameHash chirp_msg)
                                 (Message.GetServiceIdentifier chirp_msg)
                                 (Message.GetPort chirp_msg) in
       Run_dispatch (Message.GetType chirp_msg) discovered_service)
    (fun error => ret tt).

(** [Manager::Run] over the datagrams received until the stop request. *)
Definition Run (received : list BroadcastMessage) : M unit :=
  for_each received Run_iteration.

(** The invariant of the three containers. *)
Definition Manager_wf (this : Manager) : bool :=
  set_sorted (registered_services_ this)
  && set_sorted (discovered_services_ this)
  && set_sorted (discover_callbacks_ this).

(** ** Sample peers and datagrams *)

Definition hash_of_byte (b : byte) : MD5Hash := repeat b 16.

Definition group_g : MD5Hash := hash_of_byte x67.
Definition group_h : MD5Hash := hash_of_byte x68.
Definition name_a : MD5Hash := hash_of_byte x61.
Definition name_b : MD5Hash := hash_of_byte x62.

Definition control_7000 : RegisteredService.t :=
  RegisteredService.Build CONTROL 7000.
Definition data_9000 : RegisteredService.t :=
  RegisteredService.Build DATA 9000.

(** The datagram a peer of the given group and name puts on the wire. *)
Definition datagram (from : Address) (type : MessageType)
           (group name : MD5Hash) (id : ServiceIdentifier) (port : Port)
  : BroadcastMessage :=
  {| ip := from;
     content := Message.Assemble (Message.Build type group name id port) |}.

(** Peer A, group "g", with one callback and two registered services. *)
Definition peer_a : Manager :=
  {| group_hash_ := group_g;
     name_hash_ := name_a;
     registered_services_ := [control_7000; data_9000];
     discovered_services_ := [];
     discover_callbacks_ := [(4096, 0)];
     run_thread_ := true |}.


(** Peer A right after construction. *)
Definition fresh_a : Manager := Manager_new group_g name_a.

(** ** Observations on runs *)

(** [n] successive calls of [RegisterService] on the same service, with the
    values they return. *)
Fixpoint RegisterService_times (n : nat) (service : RegisteredService.t)
  : M (list bool) :=
  match n with
  | O => ret []
  | S n' =>
      r <- RegisterService service ;;
      rs <- RegisterService_times n' service ;;
      ret (r :: rs)
  end.

Definition MessageType_eqb (a b : MessageType) : bool :=
  match a, b with
  | REQUEST, REQUEST | OFFER, OFFER | LEAVING, LEAVING => true
  | _, _ => false
  end.

(** The message [SendMessage] builds for a service. *)
Definition message_for (this : Manager) (type : MessageType)
           (service : RegisteredService.t) : Message.t :=
  Message.Build type (group_hash_ this) (name_hash_ this)
                (RegisteredService.identifier service)
                (RegisteredService.port service).

(** Whether an event is a broadcast of the given type for the given service. *)
Definition announces (type : MessageType) (service : RegisteredService.t)
           (e : Event) : bool :=
  match e with
  | SendBroadcast msg =>
      MessageType_eqb (Message.GetType msg) type
      && ServiceIdentifier_eqb (Message.GetServiceIdentifier msg)
                               (RegisteredService.identifier service)
      && N.eqb (Message.GetPort msg) (RegisteredService.port service)
  | SpawnCallback _ _ _ => false
  end.

(** How many broadcasts of a type were emitted for a service. *)
Definition count_broadcasts (type : MessageType)
           (service : RegisteredService.t) (events : list Event) : nat :=
  length (filter (announces type service) events).

(** Whether an event is the start of a callback thread. *)
Definition is_callback (e : Event) : bool :=
  match e with
  | SpawnCallback _ _ _ => true
  | SendBroadcast _ => false
  end.

(** ** Sequences of calls *)

(** What can happen to a constructed Manager: a call of one of its public
    registration and callback functions by the application, or one turn of
    the receive loop on a datagram. *)
Inductive Call : Type :=
| CallRegisterService (service : RegisteredService.t)
| CallUnregisterService (service : RegisteredService.t)
| CallUnregisterServices
| CallGetRegisteredServices
| CallRegisterDiscoverCallback (callback data : N)
| CallUnregisterDiscoverCallback (callback data : N)
| CallUnregisterDiscoverCallbacks
| CallGetDiscoveredServices
| CallReceive (raw_msg : BroadcastMessage).

Definition do_call (c : Call) : M unit :=
  match c with
  | CallRegisterService service => RegisterService service ;; ret tt
  | CallUnregisterService service => UnregisterService service ;; ret tt
  | CallUnregisterServices => UnregisterServices
  | CallGetRegisteredServices => GetRegisteredServices ;; ret tt
  | CallRegisterDiscoverCallback callback data =>
      RegisterDiscoverCallback callback data ;; ret tt
  | CallUnregisterDiscoverCallback callback data =>
      UnregisterDiscoverCallback callback data ;; ret tt
  | CallUnregisterDiscoverCallbacks => UnregisterDiscoverCallbacks
  | CallGetDiscoveredServices => GetDiscoveredServices ;; ret tt
  | CallReceive raw_msg => Run_iteration raw_msg
  end.

Definition do_calls (calls : list Call) : M unit :=
  for_each calls do_call.

(** A broadcast carries the given group and name hashes. *)
Definition stamped (group_hash name_hash : MD5Hash) (e : Event) : Prop :=
  match e with
  | SendBroadcast msg =>
      Message.GetGroupHash msg = group_hash
      /\ Message.GetNameHash msg = name_hash
  | SpawnCallback _ _ _ => True
  end.

(** What the receive loop may do on behalf of a Manager: broadcast an OFFER
    for one of its registered services, or start one of its registered
    callbacks. *)
Definition replay_or_callback (this : Manager) (e : Event) : Prop :=
  match e with
  | SendBroadcast msg =>
      exists service,
        In service (registered_services_ this)
        /\ msg = message_for this OFFER service
  | SpawnCallback callback_data _ _ =>
      In callback_data (discover_callbacks_ this)
  end.

(** Two Managers that differ at most in the discovered set. *)
Definition same_but_discovered (a b : Manager) : Prop :=
  group_hash_ a = group_hash_ b
  /\ name_hash_ a = name_hash_ b
  /\ registered_services_ a = registered_services_ b
  /\ discover_callbacks_ a = discover_callbacks_ b
  /\ run_thread_ a = run_thread_ b.

(** * Properties *)

(** ** Hash comparison *)

Lemma Byte_to_N_inj (x y : byte) : Byte.to_N x = Byte.to_N y -> x = y.
Proof.
  intros H.
  assert (E : Some x = Some y)
    by (rewrite <- (Byte.of_to_N x), <- (Byte.of_to_N y), H; reflexivity).
  now inversion E.
Qed.

Lemma MD5Hash_compare_refl (a : MD5Hash) : MD5Hash_compare a a = Eq.
Proof.
  induction a as [|x a IH]; simpl; [reflexivity|].
  now rewrite N.compare_refl.
Qed.

Lemma MD5Hash_compare_eq (a b : MD5Hash) :
  MD5Hash_compare a b = Eq -> a = b.
Proof.
  revert b; induction a as [|x a IH]; intros [|y b]; simpl;
    try discriminate; [reflexivity|].
  destruct (N.compare_spec (Byte.to_N x) (Byte.to_N y)) as [E|_|_];
    try discriminate.
  intros H. f_equal; [now apply Byte_to_N_inj | now apply IH].
Qed.

Lemma MD5Hash_compare_antisym (a b : MD5Hash) :
  MD5Hash_compare b a = CompOpp (MD5Hash_compare a b).
Proof.
  revert b; induction a as [|x a IH]; intros [|y b]; simpl; try reflexivity.
  rewrite (N.compare_antisym (Byte.to_N x) (Byte.to_N y)).
  destruct (Byte.to_N x ?= Byte.to_N y); simpl; auto.
Qed.

Lemma MD5Hash_compare_trans (a b c : MD5Hash) :
  MD5Hash_compare a b = Lt -> MD5Hash_compare b c = Lt ->
  MD5Hash_compare a c = Lt.
Proof.
  revert b c; induction a as [|x a IH]; intros [|y b] [|z c]; simpl;
    try discriminate; try reflexivity.
  destruct (N.compare_spec (Byte.to_N x) (Byte.to_N y)) as [E1|L1|G1];
    destruct (N.compare_spec (Byte.to_N y) (Byte.to_N z)) as [E2|L2|G2];
    try discriminate; intros H1 H2.
  - rewrite E1, E2, N.compare_refl. eapply IH; eassumption.
  - rewrite E1. now apply N.compare_lt_iff in L2 as ->.
  - rewrite <- E2. now apply N.compare_lt_iff in L1 as ->.
  - assert (L : Byte.to_N x < Byte.to_N z) by lia.
    now apply N.compare_lt_iff in L as ->.
Qed.

Lemma MD5Hash_neq_spec (a b : MD5Hash) : MD5Hash_neq a b = true <-> a <> b.
Proof.
  unfold MD5Hash_neq. split.
  - intros H E. subst b. now rewrite MD5Hash_compare_refl in H.
  - intros H. destruct (MD5Hash_compare a b) eqn:E; try reflexivity.
    elim H. now apply MD5Hash_compare_eq.
Qed.

Lemma MD5Hash_neq_false (a b : MD5Hash) : MD5Hash_neq a b = false <-> a = b.
Proof.
  unfold MD5Hash_neq. split.
  - destruct (MD5Hash_compare a b) eqn:E; try discriminate.
    intros _. now apply MD5Hash_compare_eq.
  - intros ->. now rewrite MD5Hash_compare_refl.
Qed.

(** ** Enumerations *)

Lemma to_underlying_inj (a b : ServiceIdentifier) :
  to_underlying a = to_underlying b -> a = b.
Proof. destruct a, b; simpl; intros H; try reflexivity; discriminate. Qed.

Lemma ServiceIdentifier_eqb_eq (a b : ServiceIdentifier) :
  ServiceIdentifier_eqb a b = true <-> a = b.
Proof. destruct a, b; simpl; split; intros H; try reflexivity; discriminate. Qed.

Lemma MessageType_eqb_eq (a b : MessageType) :
  MessageType_eqb a b = true <-> a = b.
Proof. destruct a, b; simpl; split; intros H; try reflexivity; discriminate. Qed.

(** ** The codec *)

Lemma byte_of_N_to_N (n : N) : Byte.to_N (Message.byte_of_N n) = n mod 256.
Proof.
  unfold Message.byte_of_N.
  destruct (Byte.of_N (n mod 256)) as [b|] eqn:E.
  - now apply Byte.to_of_N.
  - apply Byte.of_N_None_iff in E.
    pose proof (N.mod_upper_bound n 256). lia.
Qed.

(** A message with 16-byte hashes and a 16-bit port survives the wire. *)
Lemma Message_Parse_Assemble (msg : Message.t) :
  length (Message.GetGroupHash msg) = 16%nat ->
  length (Message.GetNameHash msg) = 16%nat ->
  Message.GetPort msg < 65536 ->
  Message.Parse (Message.Assemble msg) = inr msg.
Proof.
  destruct msg as [type g n id p].
  cbn [Message.GetGroupHash Message.GetNameHash Message.GetPort].
  intros Hg Hn Hp.
  do 16 (destruct g as [|? g]; [discriminate Hg|]).
  destruct g; [|discriminate Hg].
  do 16 (destruct n as [|? n]; [discriminate Hn|]).
  destruct n; [|discriminate Hn].
  unfold Message.Parse, Message.Assemble.
  cbn [Message.GetType Message.GetGroupHash Message.GetNameHash
       Message.GetPort Message.GetServiceIdentifier
       app length Message.MAGIC Message.LENGTH Nat.eqb negb
       firstn skipn nth].
  replace (Message.bytes_eqb _ _) with true by reflexivity.
  cbn [negb].
  replace (Message.type_of_tag (Message.type_tag type)) with (Some type)
    by now destruct type.
  replace (Message.service_of_tag (Message.service_tag id)) with (Some id)
    by now destruct id.
  rewrite !byte_of_N_to_N.
  do 2 f_equal.
  rewrite (N.mod_small (p / 256) 256).
  - rewrite N.mul_comm. symmetry. apply N.div_mod. lia.
  - apply N.Div0.div_lt_upper_bound. lia.
Qed.

(** A payload of any other length is rejected. *)
Lemma Message_Parse_length (content : list byte) :
  length content <> Message.LENGTH ->
  Message.Parse content = inl MkDecodeError.
Proof.
  intros H. unfold Message.Parse.
  apply Nat.eqb_neq in H. now rewrite H.
Qed.

(** ** The ordered set *)

Section StdSetFacts.

Context {T : Type} {L : Less T}.

Lemma set_insert_inserted (s : list T) (value : T) :
  snd (set_insert s value) = negb (set_contains s value).
Proof.
  induction s as [|x s IH]; simpl; [reflexivity|].
  destruct (less value x); [reflexivity|].
  destruct (less x value); [|reflexivity].
  destruct (set_insert s value) as [r inserted]. exact IH.
Qed.

Lemma set_insert_present (s : list T) (value : T) :
  set_contains s value = true -> fst (set_insert s value) = s.
Proof.
  induction s as [|x s IH]; simpl; [discriminate|].
  destruct (less value x); [discriminate|].
  destruct (less x value); [|reflexivity].
  intros H. specialize (IH H).
  destruct (set_insert s value) as [r inserted]. simpl in *. now f_equal.
Qed.

Lemma set_insert_length (s : list T) (value : T) :
  set_contains s value = false ->
  length (fst (set_insert s value)) = S (length s).
Proof.
  induction s as [|x s IH]; simpl; [reflexivity|].
  destruct (less value x); [reflexivity|].
  destruct (less x value); [|discriminate].
  intros H. specialize (IH H).
  destruct (set_insert s value) as [r inserted]. simpl in *. now f_equal.
Qed.

Lemma set_insert_In (s : list T) (value y : T) :
  In y (fst (set_insert s value)) -> y = value \/ In y s.
Proof.
  induction s as [|x s IH]; simpl.
  - intros [E|[]]. now left.
  - destruct (less value x); simpl.
    + intros [E|H]; [now left | now right].
    + destruct (less x value); simpl; [|now right].
      destruct (set_insert s value) as [r inserted]. simpl in *.
      intros [E|H]; [now right; left|].
      destruct (IH H); [now left | now right; right].
Qed.

Lemma set_insert_In_new (s : list T) (value : T) :
  set_contains s value = false -> In value (fst (set_insert s value)).
Proof.
  induction s as [|x s IH]; simpl; [now left|].
  destruct (less value x); [now left|].
  destruct (less x value); [|discriminate].
  intros H. specialize (IH H).
  destruct (set_insert s value) as [r inserted]. simpl in *. now right.
Qed.

Lemma set_insert_In_old (s : list T) (value y : T) :
  In y s -> In y (fst (set_insert s value)).
Proof.
  induction s as [|x s IH]; simpl; [intros []|].
  intros H. destruct (less value x); [now right|].
  destruct (less x value); [|exact H].
  destruct (set_insert s value) as [r inserted]. simpl in *.
  destruct H as [E|H]; [now left | right; now apply IH].
Qed.

Lemma set_erase_count (s : list T) (key : T) :
  snd (set_erase s key) = if set_contains s key then 1 else 0.
Proof.
  induction s as [|x s IH]; simpl; [reflexivity|].
  destruct (less key x); [reflexivity|].
  destruct (less x key); [|reflexivity].
  destruct (set_erase s key) as [r count]. exact IH.
Qed.

Lemma set_erase_absent (s : list T) (key : T) :
  set_contains s key = false -> fst (set_erase s key) = s.
Proof.
  induction s as [|x s IH]; simpl; [reflexivity|].
  destruct (less key x); [reflexivity|].
  destruct (less x key); [|discriminate].
  intros H. specialize (IH H).
  destruct (set_erase s key) as [r count]. simpl in *. now f_equal.
Qed.

Lemma set_erase_length (s : list T) (key : T) :
  set_contains s key = true ->
  S (length (fst (set_erase s key))) = length s.
Proof.
  induction s as [|x s IH]; simpl; [discriminate|].
  destruct (less key x); [discriminate|].
  destruct (less x key); [|reflexivity].
  intros H. specialize (IH H).
  destruct (set_erase s key) as [r count]. simpl in *. now f_equal.
Qed.

Lemma set_erase_In (s : list T) (key y : T) :
  In y (fst (set_erase s key)) -> In y s.
Proof.
  induction s as [|x s IH]; simpl; [intros []|].
  destruct (less key x); [exact (fun H => H)|].
  destruct (less x key); [|now right].
  destruct (set_erase s key) as [r count]. simpl in *.
  intros [E|H]; [now left | right; now apply IH].
Qed.

Lemma set_sorted_cons (x : T) (s : list T) :
  set_sorted (x :: s) = above x s && set_sorted s.
Proof. destruct s; reflexivity. Qed.

Context {SWO : StrictWeakOrder T}.

Lemma set_contains_insert (s : list T) (value : T) :
  set_contains (fst (set_insert s value)) value = true.
Proof.
  induction s as [|x s IH]; simpl.
  - now rewrite less_irrefl.
  - destruct (less value x) eqn:E1; simpl.
    + now rewrite less_irrefl.
    + destruct (less x value) eqn:E2; simpl.
      * destruct (set_insert s value) as [r inserted]. simpl in *.
        now rewrite E1, E2.
      * now rewrite E1, E2.
Qed.

Lemma above_insert (x value : T) (s : list T) :
  less x value = true -> above x s = true ->
  above x (fst (set_insert s value)) = true.
Proof.
  destruct s as [|y s]; simpl; [now intros -> |].
  intros Hx Hy. destruct (less value y); [exact Hx|].
  destruct (less y value); [|exact Hy].
  destruct (set_insert s value) as [r inserted]. exact Hy.
Qed.

Lemma set_sorted_insert (s : list T) (value : T) :
  set_sorted s = true -> set_sorted (fst (set_insert s value)) = true.
Proof.
  induction s as [|x s IH]; [reflexivity|].
  rewrite set_sorted_cons. intros H.
  apply andb_true_iff in H as [Hx Hs]. simpl.
  destruct (less value x) eqn:E1.
  - cbn [fst]. rewrite set_sorted_cons. cbn [above]. rewrite E1.
    rewrite set_sorted_cons. now rewrite Hx, Hs.
  - destruct (less x value) eqn:E2.
    + pose proof (above_insert x value s E2 Hx) as Ha.
      specialize (IH Hs).
      destruct (set_insert s value) as [r inserted]. cbn [fst] in *.
      rewrite set_sorted_cons. now rewrite Ha, IH.
    + cbn [fst]. rewrite set_sorted_cons. now rewrite Hx, Hs.
Qed.

Lemma above_trans (x y : T) (s : list T) :
  less x y = true -> above y s = true -> set_sorted s = true ->
  Forall (fun z => less x z = true) s.
Proof.
  revert x y; induction s as [|z s IH]; intros x y Hxy Hy Hs; [constructor|].
  rewrite set_sorted_cons in Hs. apply andb_true_iff in Hs as [Hz Hs].
  simpl in Hy. pose proof (less_trans x y z Hxy Hy) as Hxz.
  constructor; [exact Hxz|]. eapply IH; eassumption.
Qed.

Lemma set_sorted_Forall (x : T) (s : list T) :
  set_sorted (x :: s) = true -> Forall (fun z => less x z = true) s.
Proof.
  rewrite set_sorted_cons. intros H. apply andb_true_iff in H as [Hx Hs].
  destruct s as [|y s]; [constructor|]. simpl in Hx.
  constructor; [exact Hx|].
  rewrite set_sorted_cons in Hs. apply andb_true_iff in Hs as [Hy Hs].
  eapply above_trans; eassumption.
Qed.

Lemma set_sorted_tail (x : T) (s : list T) :
  set_sorted (x :: s) = true -> set_sorted s = true.
Proof.
  rewrite set_sorted_cons. intros H. now apply andb_true_iff in H as [_ Hs].
Qed.

Lemma set_sorted_NoDup (s : list T) : set_sorted s = true -> NoDup s.
Proof.
  induction s as [|x s IH]; intros H; constructor.
  - intros Hin. pose proof (set_sorted_Forall x s H) as F.
    rewrite Forall_forall in F. specialize (F x Hin).
    now rewrite less_irrefl in F.
  - apply IH. now apply set_sorted_tail in H.
Qed.

Lemma set_contains_above (key : T) (s : list T) :
  Forall (fun z => less key z = true) s -> set_contains s key = false.
Proof.
  destruct s as [|x s]; [reflexivity|].
  intros F. inversion F as [|? ? Hx _]; subst. simpl. now rewrite Hx.
Qed.

Lemma above_erase (x key : T) (s : list T) :
  set_sorted (x :: s) = true -> above x (fst (set_erase s key)) = true.
Proof.
  intros H. pose proof (set_sorted_Forall x s H) as F.
  destruct (fst (set_erase s key)) as [|y r] eqn:E; [reflexivity|].
  simpl. rewrite Forall_forall in F. apply F.
  apply (set_erase_In s key). rewrite E. now left.
Qed.

Lemma set_sorted_erase (s : list T) (key : T) :
  set_sorted s = true -> set_sorted (fst (set_erase s key)) = true.
Proof.
  induction s as [|x s IH]; [reflexivity|].
  intros H. pose proof (set_sorted_tail x s H) as Hs. simpl.
  destruct (less key x); [exact H|].
  destruct (less x key); [|exact Hs].
  pose proof (above_erase x key s H) as Ha. specialize (IH Hs).
  destruct (set_erase s key) as [r count]. cbn [fst] in *.
  rewrite set_sorted_cons. now rewrite Ha, IH.
Qed.

Lemma set_contains_erase (s : list T) (key : T) :
  set_sorted s = true -> set_contains (fst (set_erase s key)) key = false.
Proof.
  induction s as [|x s IH]; [reflexivity|].
  intros H. pose proof (set_sorted_tail x s H) as Hs. simpl.
  destruct (less key x) eqn:E1.
  - simpl. now rewrite E1.
  - destruct (less x key) eqn:E2.
    + specialize (IH Hs).
      destruct (set_erase s key) as [r count]. simpl in *.
      now rewrite E1, E2.
    + simpl. apply set_contains_above.
      pose proof (set_sorted_Forall x s H) as F.
      rewrite Forall_forall in F |- *. intros z Hz.
      destruct (less_equiv_eq x key E2 E1 z) as [Hl _].
      rewrite <- Hl. now apply F.
Qed.

Lemma set_contains_In (s : list T) (key : T) :
  set_sorted s = true -> In key s -> set_contains s key = true.
Proof.
  induction s as [|x s IH]; [intros _ []|].
  intros H Hin. pose proof (set_sorted_Forall x s H) as F.
  rewrite Forall_forall in F. simpl.
  destruct Hin as [->|Hin].
  - now rewrite less_irrefl.
  - pose proof (F key Hin) as Hlt. rewrite Hlt.
    destruct (less key x) eqn:E.
    + pose proof (less_trans _ _ _ Hlt E) as C.
      now rewrite less_irrefl in C.
    + apply IH; [now apply set_sorted_tail in H | exact Hin].
Qed.

(** When equivalent values are equal, membership is list membership. *)
Lemma set_contains_In_iff (s : list T) (key : T) :
  (forall x y : T, less x y = false -> less y x = false -> x = y) ->
  set_sorted s = true -> (set_contains s key = true <-> In key s).
Proof.
  intros total Hs. split; [|now apply set_contains_In].
  clear Hs. induction s as [|x s IH]; simpl; [discriminate|].
  destruct (less key x) eqn:E1; [discriminate|].
  destruct (less x key) eqn:E2.
  - intros H. right. now apply IH.
  - intros _. left. now apply total.
Qed.

End StdSetFacts.

(** ** The service orderings *)

Lemma RegisteredService_lt_iff (a b : RegisteredService.t) :
  RegisteredService.lt a b = true <->
  to_underlying (RegisteredService.identifier a)
  < to_underlying (RegisteredService.identifier b)
  \/ (RegisteredService.identifier a = RegisteredService.identifier b
      /\ RegisteredService.port a < RegisteredService.port b).
Proof.
  unfold RegisteredService.lt.
  destruct (N.compare_spec (to_underlying (RegisteredService.identifier a))
                           (to_underlying (RegisteredService.identifier b)))
    as [E|Hlt|Hgt]; simpl.
  - apply to_underlying_inj in E. rewrite N.ltb_lt, E. split.
    + intros H. now right.
    + intros [H|[_ H]]; [lia | exact H].
  - split; [now left | reflexivity].
  - split; [discriminate|].
    intros [H|[E _]]; [lia | rewrite E in Hgt; lia].
Qed.

Lemma RegisteredService_lt_false_iff (a b : RegisteredService.t) :
  RegisteredService.lt a b = false <->
  to_underlying (RegisteredService.identifier b)
  < to_underlying (RegisteredService.identifier a)
  \/ (RegisteredService.identifier a = RegisteredService.identifier b
      /\ RegisteredService.port b <= RegisteredService.port a).
Proof.
  destruct (RegisteredService.lt a b) eqn:E.
  - apply RegisteredService_lt_iff in E. split; [discriminate|].
    intros [H|[Hid H]]; destruct E as [E|[Eid E]].
    + lia.
    + rewrite Eid in H. lia.
    + rewrite Hid in E. lia.
    + lia.
  - split; [intros _ | reflexivity].
    assert (N : ~ (to_underlying (RegisteredService.identifier a)
                   < to_underlying (RegisteredService.identifier b)
                   \/ (RegisteredService.identifier a
                       = RegisteredService.identifier b
                       /\ RegisteredService.port a < RegisteredService.port b)))
      by (rewrite <- RegisteredService_lt_iff, E; discriminate).
    destruct (N.lt_trichotomy
                (to_underlying (RegisteredService.identifier a))
                (to_underlying (RegisteredService.identifier b)))
      as [H|[H|H]].
    + elim N. now left.
    + apply to_underlying_inj in H. right. split; [exact H|].
      destruct (N.le_gt_cases (RegisteredService.port b)
                              (RegisteredService.port a)) as [Hp|Hp];
        [exact Hp|]. elim N. now right.
    + now left.
Qed.

Lemma RegisteredService_equiv_eq (a b : RegisteredService.t) :
  RegisteredService.lt a b = false -> RegisteredService.lt b a = false ->
  a = b.
Proof.
  intros H1 H2.
  apply RegisteredService_lt_false_iff in H1, H2.
  destruct a as [ia pa], b as [ib pb]; simpl in *.
  assert (ia = ib) by (destruct H1 as [?|[? _]], H2 as [?|[? _]];
                       congruence || lia).
  subst ib.
  assert (pa = pb) by (destruct H1 as [?|[_ ?]], H2 as [?|[_ ?]]; lia).
  now subst pb.
Qed.

Lemma RegisteredService_StrictWeakOrder : StrictWeakOrder RegisteredService.t.
Proof.
  split; unfold less, RegisteredService_Less.
  - intros x. apply RegisteredService_lt_false_iff. right. split; [reflexivity | lia].
  - intros x y z Hxy Hyz.
    apply RegisteredService_lt_iff in Hxy, Hyz.
    apply RegisteredService_lt_iff.
    destruct Hxy as [H1|[E1 H1]], Hyz as [H2|[E2 H2]].
    + left; lia.
    + left; rewrite <- E2; exact H1.
    + left; rewrite E1; exact H2.
    + right; split; [congruence | lia].
  - intros x y H1 H2 z.
    now rewrite (RegisteredService_equiv_eq x y H1 H2).
Qed.

#[export] Existing Instance RegisteredService_StrictWeakOrder.

(** The key a discovered service is ordered by. *)
Lemma DiscoveredService_lt_iff (a b : DiscoveredService.t) :
  DiscoveredService.lt a b = true <->
  MD5Hash_compare (DiscoveredService.name_hash a)
                  (DiscoveredService.name_hash b) = Lt
  \/ (DiscoveredService.name_hash a = DiscoveredService.name_hash b
      /\ (to_underlying (DiscoveredService.identifier a)
          < to_underlying (DiscoveredService.identifier b)
          \/ (DiscoveredService.identifier a = DiscoveredService.identifier b
              /\ DiscoveredService.port a < DiscoveredService.port b))).
Proof.
  unfold DiscoveredService.lt.
  destruct (MD5Hash_compare (DiscoveredService.name_hash a)
                            (DiscoveredService.name_hash b)) eqn:Eh; simpl.
  - pose proof (MD5Hash_compare_eq _ _ Eh) as En.
    destruct (N.compare_spec
                (to_underlying (DiscoveredService.identifier a))
                (to_underlying (DiscoveredService.identifier b)))
      as [E|Hlt|Hgt]; simpl.
    + apply to_underlying_inj in E. rewrite N.ltb_lt, E. split.
      * intros H. right. split; [exact En|]. now right.
      * intros [H|[_ [H|[_ H]]]]; [discriminate | lia | exact H].
    + split; [|reflexivity]. intros _. right. split; [exact En | now left].
    + split; [discriminate|].
      intros [H|[_ [H|[E _]]]]; [discriminate | lia | rewrite E in Hgt; lia].
  - split; [now left | reflexivity].
  - split; [discriminate|].
    intros [H|[En _]]; [discriminate|].
    rewrite En, MD5Hash_compare_refl in Eh. discriminate.
Qed.

Lemma DiscoveredService_equiv_key (a b : DiscoveredService.t) :
  DiscoveredService.lt a b = false -> DiscoveredService.lt b a = false ->
  DiscoveredService.name_hash a = DiscoveredService.name_hash b
  /\ DiscoveredService.identifier a = DiscoveredService.identifier b
  /\ DiscoveredService.port a = DiscoveredService.port b.
Proof.
  unfold DiscoveredService.lt.
  rewrite (MD5Hash_compare_antisym (DiscoveredService.name_hash a)
                                   (DiscoveredService.name_hash b)).
  destruct (MD5Hash_compare (DiscoveredService.name_hash a)
                            (DiscoveredService.name_hash b)) eqn:Eh; simpl;
    try discriminate.
  rewrite (N.compare_antisym
             (to_underlying (DiscoveredService.identifier a))
             (to_underlying (DiscoveredService.identifier b))).
  destruct (N.compare_spec
              (to_underlying (DiscoveredService.identifier a))
              (to_underlying (DiscoveredService.identifier b)))
    as [E|Hlt|Hgt]; simpl; try discriminate.
  rewrite !N.ltb_ge. intros H1 H2.
  split; [now apply MD5Hash_compare_eq|].
  split; [now apply to_underlying_inj | lia].
Qed.

Lemma DiscoveredService_lt_key (a b c : DiscoveredService.t) :
  DiscoveredService.name_hash a = DiscoveredService.name_hash b ->
  DiscoveredService.identifier a = DiscoveredService.identifier b ->
  DiscoveredService.port a = DiscoveredService.port b ->
  DiscoveredService.lt a c = DiscoveredService.lt b c
  /\ DiscoveredService.lt c a = DiscoveredService.lt c b.
Proof.
  unfold DiscoveredService.lt. intros -> -> ->. split; reflexivity.
Qed.

Lemma DiscoveredService_StrictWeakOrder : StrictWeakOrder DiscoveredService.t.
Proof.
  split; unfold less, DiscoveredService_Less.
  - intros x. unfold DiscoveredService.lt.
    now rewrite MD5Hash_compare_refl, N.compare_refl, N.ltb_irrefl.
  - intros x y z Hxy Hyz.
    apply DiscoveredService_lt_iff in Hxy, Hyz.
    apply DiscoveredService_lt_iff.
    destruct Hxy as [H1|[E1 H1]], Hyz as [H2|[E2 H2]].
    + left. eapply MD5Hash_compare_trans; eassumption.
    + left. now rewrite <- E2.
    + left. now rewrite E1.
    + right. split; [congruence|].
      destruct H1 as [H1|[I1 H1]], H2 as [H2|[I2 H2]].
      * left; lia.
      * left; rewrite <- I2; exact H1.
      * left; rewrite I1; exact H2.
      * right; split; [congruence | lia].
  - intros x y H1 H2 z.
    destruct (DiscoveredService_equiv_key x y H1 H2) as (En & Ei & Ep).
    now apply DiscoveredService_lt_key.
Qed.

#[export] Existing Instance DiscoveredService_StrictWeakOrder.

Lemma CallbackEntry_StrictWeakOrder : StrictWeakOrder CallbackEntry.
Proof.
  assert (char : forall a b : CallbackEntry,
             CallbackEntry_lt a b = true <->
             fst a < fst b \/ (fst a = fst b /\ snd a < snd b)).
  { intros [a1 a2] [b1 b2]. unfold CallbackEntry_lt. simpl.
    destruct (N.ltb_spec a1 b1); [split; [now left | reflexivity]|].
    destruct (N.ltb_spec b1 a1).
    - split; [discriminate | lia].
    - rewrite N.ltb_lt. split; [right; lia | lia]. }
  assert (charf : forall a b : CallbackEntry,
             CallbackEntry_lt a b = false <->
             fst b < fst a \/ (fst a = fst b /\ snd b <= snd a)).
  { intros a b. destruct (CallbackEntry_lt a b) eqn:E.
    - apply char in E. split; [discriminate | lia].
    - split; [intros _ | reflexivity].
      assert (N : ~ (fst a < fst b \/ (fst a = fst b /\ snd a < snd b)))
        by (rewrite <- char, E; discriminate).
      lia. }
  split; unfold less, CallbackEntry_Less.
  - intros x. apply charf. lia.
  - intros x y z Hxy Hyz. apply char in Hxy, Hyz. apply char. lia.
  - intros [x1 x2] [y1 y2] H1 H2 z. apply charf in H1, H2. simpl in *.
    assert (x1 = y1) by lia. assert (x2 = y2) by lia. now subst.
Qed.

#[export] Existing Instance CallbackEntry_StrictWeakOrder.

(** ** Running member functions *)

Lemma bind_run {A B : Type} (c : M A) (k : A -> M B) (this this1 this2 : Manager)
      (a : A) (r : Outcome B) (events1 events2 : list Event) :
  c this = (Returned a, this1, events1) ->
  k a this1 = (r, this2, events2) ->
  bind c k this = (r, this2, events1 ++ events2).
Proof. unfold bind. now intros -> ->. Qed.

Lemma SendMessage_run (type : MessageType) (service : RegisteredService.t)
      (this : Manager) :
  SendMessage type service this
  = (Returned tt, this, [SendBroadcast (message_for this type service)]).
Proof. reflexivity. Qed.

Lemma for_each_SendMessage (type : MessageType)
      (services : list RegisteredService.t) (this : Manager) :
  for_each services (fun service => SendMessage type service) this
  = (Returned tt, this,
     map (fun service => SendBroadcast (message_for this type service))
         services).
Proof.
  induction services as [|s services IH]; [reflexivity|].
  cbn [for_each map].
  now rewrite (bind_run _ _ _ _ _ _ _ _ _ (SendMessage_run type s this) IH).
Qed.

Lemma for_each_replay (service_id : ServiceIdentifier)
      (services : list RegisteredService.t) (this : Manager) :
  for_each services
           (fun service =>
              if ServiceIdentifier_eqb
                   (RegisteredService.identifier service) service_id
              then SendMessage OFFER service
              else ret tt) this
  = (Returned tt, this,
     map (fun service => SendBroadcast (message_for this OFFER service))
         (filter (fun service =>
                    ServiceIdentifier_eqb
                      (RegisteredService.identifier service) service_id)
                 services)).
Proof.
  induction services as [|s services IH]; [reflexivity|].
  cbn [for_each filter].
  destruct (ServiceIdentifier_eqb (RegisteredService.identifier s) service_id).
  - now rewrite (bind_run _ _ _ _ _ _ _ _ _ (SendMessage_run OFFER s this) IH).
  - now rewrite (bind_run _ _ _ _ _ _ _ _ _ (eq_refl : ret tt this = _) IH).
Qed.

Lemma for_each_emit {A : Type} (f : A -> Event) (range : list A)
      (this : Manager) :
  for_each range (fun x => emit (f x)) this = (Returned tt, this, map f range).
Proof.
  induction range as [|x range IH]; [reflexivity|].
  cbn [for_each map].
  now rewrite (bind_run _ _ _ _ _ _ _ _ _ (eq_refl : emit (f x) this = _) IH).
Qed.

Lemma spawn_callbacks_run (service : DiscoveredService.t) (departing : bool)
      (this : Manager) :
  spawn_callbacks service departing this
  = (Returned tt, this,
     map (fun callback_data => SpawnCallback callback_data service departing)
         (discover_callbacks_ this)).
Proof.
  unfold spawn_callbacks.
  now rewrite (bind_run _ _ _ _ _ _ _ _ _ (eq_refl : get this = _)
                        (for_each_emit _ _ this)).
Qed.

(** The REQUEST case replays one OFFER per registered service of the
    requested kind and leaves the Manager as it was. *)
Lemma Run_dispatch_REQUEST (service : DiscoveredService.t) (this : Manager) :
  Run_dispatch REQUEST service this
  = (Returned tt, this,
     map (fun s => SendBroadcast (message_for this OFFER s))
         (filter (fun s =>
                    ServiceIdentifier_eqb
                      (RegisteredService.identifier s)
                      (DiscoveredService.identifier service))
                 (registered_services_ this))).
Proof.
  unfold Run_dispatch.
  now rewrite (bind_run _ _ _ _ _ _ _ _ _ (eq_refl : get this = _)
                        (for_each_replay _ _ this)).
Qed.

(** The OFFER case on a service that is not yet known. *)
Lemma Run_dispatch_OFFER_new (service : DiscoveredService.t) (this : Manager) :
  set_contains (discovered_services_ this) service = false ->
  Run_dispatch OFFER service this
  = (Returned tt,
     set_discovered_services
       (fst (set_insert (discovered_services_ this) service)) this,
     map (fun callback_data => SpawnCallback callback_data service false)
         (discover_callbacks_ this)).
Proof.
  intros H. unfold Run_dispatch, bind at 1, get. rewrite H. cbn [negb].
  unfold bind, modify. rewrite spawn_callbacks_run. reflexivity.
Qed.

(** The OFFER case on a known service. *)
Lemma Run_dispatch_OFFER_known (service : DiscoveredService.t)
      (this : Manager) :
  set_contains (discovered_services_ this) service = true ->
  Run_dispatch OFFER service this = (Returned tt, this, []).
Proof.
  intros H. unfold Run_dispatch, bind, get. now rewrite H.
Qed.

(** The LEAVING case on a known service. *)
Lemma Run_dispatch_LEAVING_known (service : DiscoveredService.t)
      (this : Manager) :
  set_contains (discovered_services_ this) service = true ->
  Run_dispatch LEAVING service this
  = (Returned tt,
     set_discovered_services
       (fst (set_erase (discovered_services_ this) service)) this,
     map (fun callback_data => SpawnCallback callback_data service true)
         (discover_callbacks_ this)).
Proof.
  intros H. unfold Run_dispatch, bind at 1, get. rewrite H.
  unfold bind, modify. rewrite spawn_callbacks_run. reflexivity.
Qed.

(** The LEAVING case on an unknown service. *)
Lemma Run_dispatch_LEAVING_unknown (service : DiscoveredService.t)
      (this : Manager) :
  set_contains (discovered_services_ this) service = false ->
  Run_dispatch LEAVING service this = (Returned tt, this, []).
Proof.
  intros H. unfold Run_dispatch, bind, get. now rewrite H.
Qed.

Lemma Run_dispatch_returns (type : MessageType)
      (service : DiscoveredService.t) (this : Manager) :
  result_of (Run_dispatch type service this) = Returned tt.
Proof.
  destruct type.
  - now rewrite Run_dispatch_REQUEST.
  - destruct (set_contains (discovered_services_ this) service) eqn:E.
    + now rewrite Run_dispatch_OFFER_known.
    + now rewrite Run_dispatch_OFFER_new.
  - destruct (set_contains (discovered_services_ this) service) eqn:E.
    + now rewrite Run_dispatch_LEAVING_known.
    + now rewrite Run_dispatch_LEAVING_unknown.
Qed.

(** The service record the loop builds from a datagram. *)
Lemma Run_iteration_decoded (raw_msg : BroadcastMessage)
      (chirp_msg : Message.t) (this : Manager) :
  Message.Parse (content raw_msg) = inr chirp_msg ->
  Run_iteration raw_msg this
  = if MD5Hash_neq (Message.GetGroupHash chirp_msg) (group_hash_ this)
    then (Returned tt, this, [])
    else if MD5Hash_neq (Message.GetNameHash chirp_msg) (name_hash_ this)
    then (Returned tt, this, [])
    else Run_dispatch (Message.GetType chirp_msg)
                      (DiscoveredService.Build
                         (ip raw_msg)
                         (Message.GetNameHash chirp_msg)
                         (Message.GetServiceIdentifier chirp_msg)
                         (Message.GetPort chirp_msg)) this.
Proof.
  intros HP. unfold Run_iteration, try_catch, Message_of_content.
  rewrite HP. unfold bind at 1, ret at 1. unfold bind at 1, get.
  destruct (MD5Hash_neq (Message.GetGroupHash chirp_msg) (group_hash_ this));
    [reflexivity|].
  destruct (MD5Hash_neq (Message.GetNameHash chirp_msg) (name_hash_ this));
    [reflexivity|].
  pose proof (Run_dispatch_returns
                (Message.GetType chirp_msg)
                (DiscoveredService.Build
                   (ip raw_msg) (Message.GetNameHash chirp_msg)
                   (Message.GetServiceIdentifier chirp_msg)
                   (Message.GetPort chirp_msg)) this) as R.
  destruct (Run_dispatch _ _ this) as [[r this'] events].
  unfold result_of in R. simpl in R. subst r. reflexivity.
Qed.

Lemma Run_iteration_malformed (raw_msg : BroadcastMessage)
      (error : DecodeError) (this : Manager) :
  Message.Parse (content raw_msg) = inl error ->
  Run_iteration raw_msg this = (Returned tt, this, []).
Proof.
  intros HP. unfold Run_iteration, try_catch, Message_of_content.
  rewrite HP. reflexivity.
Qed.

Lemma Run_iteration_returns (raw_msg : BroadcastMessage) (this : Manager) :
  result_of (Run_iteration raw_msg this) = Returned tt.
Proof.
  destruct (Message.Parse (content raw_msg)) as [error|chirp_msg] eqn:HP.
  - now rewrite (Run_iteration_malformed _ _ _ HP).
  - rewrite (Run_iteration_decoded _ _ _ HP).
    destruct (MD5Hash_neq _ (group_hash_ this)); [reflexivity|].
    destruct (MD5Hash_neq _ (name_hash_ this)); [reflexivity|].
    apply Run_dispatch_returns.
Qed.

Lemma Run_returns (received : list BroadcastMessage) (this : Manager) :
  result_of (Run received this) = Returned tt.
Proof.
  revert this; induction received as [|raw_msg received IH]; intros this;
    [reflexivity|].
  unfold Run in *. cbn [for_each]. unfold bind.
  pose proof (Run_iteration_returns raw_msg this) as R.
  destruct (Run_iteration raw_msg this) as [[r this1] events1].
  unfold result_of in R. simpl in R. subst r.
  specialize (IH this1).
  destruct (for_each received Run_iteration this1) as [[r this2] events2].
  exact IH.
Qed.

(** ** The filters of the receive loop *)

(** A datagram of another group is dropped, whatever else it carries. *)
Lemma Run_iteration_group_filter (raw_msg : BroadcastMessage)
      (chirp_msg : Message.t) (this : Manager) :
  Message.Parse (content raw_msg) = inr chirp_msg ->
  Message.GetGroupHash chirp_msg <> group_hash_ this ->
  Run_iteration raw_msg this = (Returned tt, this, []).
Proof.
  intros HP Hg. rewrite (Run_iteration_decoded _ _ _ HP).
  apply MD5Hash_neq_spec in Hg. now rewrite Hg.
Qed.

(** The second filter as the source has it: the datagram is dropped when its
    name hash differs from the local one. *)
Lemma Run_iteration_name_filter (raw_msg : BroadcastMessage)
      (chirp_msg : Message.t) (this : Manager) :
  Message.Parse (content raw_msg) = inr chirp_msg ->
  Message.GetNameHash chirp_msg <> name_hash_ this ->
  Run_iteration raw_msg this = (Returned tt, this, []).
Proof.
  intros HP Hn. rewrite (Run_iteration_decoded _ _ _ HP).
  apply MD5Hash_neq_spec in Hn. rewrite Hn.
  now destruct (MD5Hash_neq _ (group_hash_ this)).
Qed.

(** A datagram that carries the local group and the local name reaches the
    [switch]. *)
Lemma Run_iteration_own_name (raw_msg : BroadcastMessage)
      (chirp_msg : Message.t) (this : Manager) :
  Message.Parse (content raw_msg) = inr chirp_msg ->
  Message.GetGroupHash chirp_msg = group_hash_ this ->
  Message.GetNameHash chirp_msg = name_hash_ this ->
  Run_iteration raw_msg this
  = Run_dispatch (Message.GetType chirp_msg)
                 (DiscoveredService.Build
                    (ip raw_msg) (name_hash_ this)
                    (Message.GetServiceIdentifier chirp_msg)
                    (Message.GetPort chirp_msg)) this.
Proof.
  intros HP Hg Hn. rewrite (Run_iteration_decoded _ _ _ HP).
  apply MD5Hash_neq_false in Hg. rewrite Hg.
  pose proof Hn as Hn'. apply MD5Hash_neq_false in Hn'. rewrite Hn'.
  now rewrite Hn.
Qed.

(** ** Claims on the receive loop *)

(** C1 (what the code does at the failing input): peer A, whose name hash is
    [name_a], receives its own OFFER for CONTROL on port 7000.  The datagram
    is not dropped: the service is inserted into [discovered_services_] and
    the registered callback is started with [departing = false]. *)
Theorem Run_iteration_own_offer_is_stored :
  let own_offer := datagram 5 OFFER group_g name_a CONTROL 7000 in
  let service := DiscoveredService.Build 5 name_a CONTROL 7000 in
  Message.Parse (content own_offer)
  = inr (Message.Build OFFER group_g name_a CONTROL 7000)
  /\ MD5Hash_neq group_g (group_hash_ peer_a) = false
  /\ MD5Hash_neq name_a (name_hash_ peer_a) = false
  /\ Run_iteration own_offer peer_a
     = (Returned tt,
        set_discovered_services [service] peer_a,
        [SpawnCallback (4096, 0) service false]).
Proof. repeat split. Qed.

(** C2 (what the code does at the failing input): peer A receives the OFFER
    of peer B, of the same group and with another name hash, for a service
    that is not in the discovered set.  The datagram is dropped: nothing is
    inserted and no callback is started. *)
Theorem Run_iteration_remote_offer_is_dropped :
  let remote_offer := datagram 5 OFFER group_g name_b CONTROL 7000 in
  let service := DiscoveredService.Build 5 name_b CONTROL 7000 in
  Message.Parse (content remote_offer)
  = inr (Message.Build OFFER group_g name_b CONTROL 7000)
  /\ MD5Hash_neq group_g (group_hash_ peer_a) = false
  /\ MD5Hash_neq name_b (name_hash_ peer_a) = true
  /\ set_contains (discovered_services_ peer_a) service = false
  /\ Run_iteration remote_offer peer_a = (Returned tt, peer_a, []).
Proof. repeat split. Qed.

(** C6 (what the code does at the failing input): peer A, which registers
    CONTROL on port 7000, receives a REQUEST for CONTROL from peer B of the
    same group.  The datagram is dropped and no OFFER is emitted. *)
Theorem Run_iteration_remote_request_is_dropped :
  let remote_request := datagram 5 REQUEST group_g name_b CONTROL 0 in
  Message.Parse (content remote_request)
  = inr (Message.Build REQUEST group_g name_b CONTROL 0)
  /\ MD5Hash_neq group_g (group_hash_ peer_a) = false
  /\ MD5Hash_neq name_b (name_hash_ peer_a) = true
  /\ set_contains (registered_services_ peer_a) control_7000 = true
  /\ Run_iteration remote_request peer_a = (Returned tt, peer_a, []).
Proof. repeat split. Qed.

(** C7: an inbound datagram whose group hash differs from the local group
    hash is dropped by the receive loop: the Manager (registered set,
    discovered set, callback registry) is unchanged and there is no event at
    all, neither a callback nor a broadcast. *)
Theorem Run_iteration_other_group_dropped (raw_msg : BroadcastMessage)
        (chirp_msg : Message.t) (this : Manager) :
  Message.Parse (content raw_msg) = inr chirp_msg ->
  Message.GetGroupHash chirp_msg <> group_hash_ this ->
  state_of (Run_iteration raw_msg this) = this
  /\ events_of (Run_iteration raw_msg this) = []
  /\ result_of (Run_iteration raw_msg this) = Returned tt.
Proof.
  intros HP Hg. now rewrite (Run_iteration_group_filter _ _ _ HP Hg).
Qed.

Lemma Run_iteration_other_group_dropped_witness :
  let raw_msg := datagram 5 OFFER group_h name_b CONTROL 7000 in
  let chirp_msg := Message.Build OFFER group_h name_b CONTROL 7000 in
  Message.Parse (content raw_msg) = inr chirp_msg
  /\ Message.GetGroupHash chirp_msg <> group_hash_ peer_a
  /\ state_of (Run_iteration raw_msg peer_a) = peer_a
  /\ events_of (Run_iteration raw_msg peer_a) = []
  /\ result_of (Run_iteration raw_msg peer_a) = Returned tt.
Proof.
  split; [reflexivity|]. split; [discriminate|].
  apply (Run_iteration_other_group_dropped
           (datagram 5 OFFER group_h name_b CONTROL 7000)
           (Message.Build OFFER group_h name_b CONTROL 7000) peer_a);
    [reflexivity | discriminate].
Defined.

Lemma Run_skip_malformed (raw_msg : BroadcastMessage) (error : DecodeError)
      (before rest : list BroadcastMessage) (this : Manager) :
  Message.Parse (content raw_msg) = inl error ->
  Run (before ++ raw_msg :: rest) this = Run (before ++ rest) this.
Proof.
  intros HP. revert this.
  induction before as [|x before IH]; intros this; unfold Run in *.
  - cbn [app for_each]. unfold bind.
    rewrite (Run_iteration_malformed _ _ _ HP).
    now destruct (for_each rest Run_iteration this) as [[r this2] events2].
  - cbn [app for_each]. unfold bind.
    destruct (Run_iteration x this) as [[[a|e] this1] events1];
      [|reflexivity].
    now rewrite IH.
Qed.

(** C8: when a datagram fails to parse, the receive loop catches the
    DecodeError: the turn ends normally with the Manager (registered set,
    discovered set, callback registry) unchanged and no event, and the loop
    goes on with the datagrams that follow, wherever in the stream the
    malformed one arrives; the loop as a whole never ends by an exception. *)
Theorem Run_decode_error_continues (raw_msg : BroadcastMessage)
        (error : DecodeError) (this : Manager) :
  Message.Parse (content raw_msg) = inl error ->
  Run_iteration raw_msg this = (Returned tt, this, [])
  /\ (forall (before rest : list BroadcastMessage) (that : Manager),
         Run (before ++ raw_msg :: rest) that = Run (before ++ rest) that
         /\ result_of (Run (before ++ raw_msg :: rest) that) = Returned tt).
Proof.
  intros HP. split; [now apply (Run_iteration_malformed _ error)|].
  intros before rest that. split.
  - now apply (Run_skip_malformed _ error).
  - apply Run_returns.
Qed.

Lemma Run_decode_error_continues_witness :
  let raw_msg := {| ip := 5; content := [x43; x48] |} in
  Message.Parse (content raw_msg) = inl MkDecodeError
  /\ Run_iteration raw_msg peer_a = (Returned tt, peer_a, [])
  /\ (forall (before rest : list BroadcastMessage) (that : Manager),
         Run (before ++ raw_msg :: rest) that = Run (before ++ rest) that
         /\ result_of (Run (before ++ raw_msg :: rest) that) = Returned tt).
Proof.
  split; [reflexivity|].
  apply (Run_decode_error_continues
           {| ip := 5; content := [x43; x48] |} MkDecodeError peer_a).
  reflexivity.
Defined.

(** C10: processing an inbound REQUEST leaves the Manager as it was, so the
    registered set, the discovered set and the callback registry are the same
    before and after; every event of the turn is the broadcast of an OFFER
    for a registered service. *)
Theorem Run_iteration_REQUEST_frame (raw_msg : BroadcastMessage)
        (chirp_msg : Message.t) (this : Manager) :
  Message.Parse (content raw_msg) = inr chirp_msg ->
  Message.GetType chirp_msg = REQUEST ->
  state_of (Run_iteration raw_msg this) = this
  /\ Forall (fun e =>
               exists service,
                 In service (registered_services_ this)
                 /\ e = SendBroadcast (message_for this OFFER service))
            (events_of (Run_iteration raw_msg this)).
Proof.
  intros HP HT. rewrite (Run_iteration_decoded _ _ _ HP).
  destruct (MD5Hash_neq _ (group_hash_ this));
    [split; [reflexivity | constructor]|].
  destruct (MD5Hash_neq _ (name_hash_ this));
    [split; [reflexivity | constructor]|].
  rewrite HT, Run_dispatch_REQUEST. split; [reflexivity|].
  unfold events_of. cbn [snd]. apply Forall_forall. intros e He.
  apply in_map_iff in He as (service & <- & Hin).
  apply filter_In in Hin as [Hin _].
  exists service. now split.
Qed.

Lemma Run_iteration_REQUEST_frame_witness :
  let raw_msg := datagram 5 REQUEST group_g name_a CONTROL 0 in
  let chirp_msg := Message.Build REQUEST group_g name_a CONTROL 0 in
  Message.Parse (content raw_msg) = inr chirp_msg
  /\ Message.GetType chirp_msg = REQUEST
  /\ state_of (Run_iteration raw_msg peer_a) = peer_a
  /\ Forall (fun e =>
               exists service,
                 In service (registered_services_ peer_a)
                 /\ e = SendBroadcast (message_for peer_a OFFER service))
            (events_of (Run_iteration raw_msg peer_a)).
Proof.
  split; [reflexivity|]. split; [reflexivity|].
  apply (Run_iteration_REQUEST_frame
           (datagram 5 REQUEST group_g name_a CONTROL 0)
           (Message.Build REQUEST group_g name_a CONTROL 0) peer_a);
    reflexivity.
Defined.

(** ** The ordering of discovered services *)

(** C9: [DiscoveredService::operator<] compares first by name hash, then by
    identifier tag, then by port; the address takes no part in it, and two
    values that differ only in the address compare equal (neither sorts
    before the other). *)
Theorem DiscoveredService_lt_ignores_address :
  (forall a b : DiscoveredService.t,
      DiscoveredService.lt a b = true <->
      MD5Hash_compare (DiscoveredService.name_hash a)
                      (DiscoveredService.name_hash b) = Lt
      \/ (DiscoveredService.name_hash a = DiscoveredService.name_hash b
          /\ (to_underlying (DiscoveredService.identifier a)
              < to_underlying (DiscoveredService.identifier b)
              \/ (DiscoveredService.identifier a
                  = DiscoveredService.identifier b
                  /\ DiscoveredService.port a < DiscoveredService.port b))))
  /\ (forall (address1 address2 address1' address2' : Address)
             (h1 h2 : MD5Hash) (id1 id2 : ServiceIdentifier) (p1 p2 : Port),
         DiscoveredService.lt (DiscoveredService.Build address1 h1 id1 p1)
                              (DiscoveredService.Build address2 h2 id2 p2)
         = DiscoveredService.lt (DiscoveredService.Build address1' h1 id1 p1)
                                (DiscoveredService.Build address2' h2 id2 p2))
  /\ (forall (address1 address2 : Address) (h : MD5Hash)
             (id : ServiceIdentifier) (p : Port),
         DiscoveredService.lt (DiscoveredService.Build address1 h id p)
                              (DiscoveredService.Build address2 h id p) = false
         /\ DiscoveredService.lt (DiscoveredService.Build address2 h id p)
                                 (DiscoveredService.Build address1 h id p)
            = false).
Proof.
  split; [exact DiscoveredService_lt_iff|]. split.
  - reflexivity.
  - intros address1 address2 h id p. unfold DiscoveredService.lt. simpl.
    now rewrite MD5Hash_compare_refl, N.compare_refl, N.ltb_irrefl.
Qed.

(** ** Registration *)

Lemma set_registered_services_same (this : Manager) :
  set_registered_services (registered_services_ this) this = this.
Proof. now destruct this. Qed.

Lemma RegisterService_new (service : RegisteredService.t) (this : Manager) :
  set_contains (registered_services_ this) service = false ->
  RegisterService service this
  = (Returned true,
     set_registered_services
       (fst (set_insert (registered_services_ this) service)) this,
     [SendBroadcast (message_for this OFFER service)]).
Proof.
  intros H. unfold RegisterService, bind, get, modify.
  rewrite set_insert_inserted, H. reflexivity.
Qed.

Lemma RegisterService_known (service : RegisteredService.t) (this : Manager) :
  set_contains (registered_services_ this) service = true ->
  RegisterService service this = (Returned false, this, []).
Proof.
  intros H. unfold RegisterService, bind, get, modify.
  rewrite set_insert_inserted, H, (set_insert_present _ _ H).
  cbn. now rewrite set_registered_services_same.
Qed.

Lemma RegisterService_times_known (n : nat) (service : RegisteredService.t)
      (this : Manager) :
  set_contains (registered_services_ this) service = true ->
  RegisterService_times n service this = (Returned (repeat false n), this, []).
Proof.
  intros H. induction n as [|n IH]; [reflexivity|].
  cbn [RegisterService_times repeat]. unfold bind.
  now rewrite (RegisterService_known _ _ H), IH.
Qed.

Lemma UnregisterService_known (service : RegisteredService.t)
      (this : Manager) :
  set_contains (registered_services_ this) service = true ->
  UnregisterService service this
  = (Returned true,
     set_registered_services
       (fst (set_erase (registered_services_ this) service)) this,
     [SendBroadcast (message_for this LEAVING service)]).
Proof.
  intros H. unfold UnregisterService, bind, get, modify.
  rewrite set_erase_count, H. reflexivity.
Qed.

Lemma UnregisterService_unknown (service : RegisteredService.t)
      (this : Manager) :
  set_contains (registered_services_ this) service = false ->
  UnregisterService service this = (Returned false, this, []).
Proof.
  intros H. unfold UnregisterService, bind, get, modify.
  rewrite set_erase_count, H, (set_erase_absent _ _ H).
  cbn. now rewrite set_registered_services_same.
Qed.

Lemma UnregisterServices_sweep_run (this : Manager) :
  UnregisterServices_sweep this
  = (Returned tt, this,
     map (fun service => SendBroadcast (message_for this LEAVING service))
         (registered_services_ this)).
Proof.
  unfold UnregisterServices_sweep.
  now rewrite (bind_run _ _ _ _ _ _ _ _ _ (eq_refl : get this = _)
                        (for_each_SendMessage LEAVING _ this)).
Qed.

Lemma UnregisterServices_run (this : Manager) :
  UnregisterServices this
  = (Returned tt, set_registered_services [] this,
     map (fun service => SendBroadcast (message_for this LEAVING service))
         (registered_services_ this)).
Proof.
  unfold UnregisterServices, bind, modify.
  now rewrite UnregisterServices_sweep_run, app_nil_r.
Qed.

(** The Manager once its receive thread is stopped and joined. *)
Lemma stop_run_thread_run (this : Manager) :
  stop_run_thread this
  = (Returned tt,
     (if run_thread_ this then set_run_thread false this else this), []).
Proof.
  unfold stop_run_thread, bind, get, modify. now destruct (run_thread_ this).
Qed.

Lemma announces_message_for (this : Manager) (type : MessageType)
      (service other : RegisteredService.t) :
  announces type service (SendBroadcast (message_for this type other)) = true
  <-> other = service.
Proof.
  destruct service as [i p], other as [j q]. simpl.
  rewrite !andb_true_iff, N.eqb_eq, ServiceIdentifier_eqb_eq,
    MessageType_eqb_eq.
  split.
  - intros [[_ ->] ->]. reflexivity.
  - intros E. inversion E. now repeat split.
Qed.

Lemma count_broadcasts_absent (this : Manager) (type : MessageType)
      (service : RegisteredService.t) (services : list RegisteredService.t) :
  ~ In service services ->
  count_broadcasts type service
    (map (fun s => SendBroadcast (message_for this type s)) services) = O.
Proof.
  unfold count_broadcasts.
  induction services as [|x services IH]; [reflexivity|].
  intros H. cbn [map filter].
  destruct (announces type service (SendBroadcast (message_for this type x)))
    eqn:E.
  - apply announces_message_for in E. elim H. now left.
  - apply IH. intros Hin. apply H. now right.
Qed.

Lemma count_broadcasts_once (this : Manager) (type : MessageType)
      (service : RegisteredService.t) (services : list RegisteredService.t) :
  NoDup services -> In service services ->
  count_broadcasts type service
    (map (fun s => SendBroadcast (message_for this type s)) services) = 1%nat.
Proof.
  induction services as [|x services IH]; [intros _ []|].
  intros ND Hin. inversion ND as [|? ? Hx ND']; subst.
  unfold count_broadcasts in *. cbn [map filter].
  destruct (announces type service (SendBroadcast (message_for this type x)))
    eqn:E.
  - apply announces_message_for in E. subst x. cbn [length]. f_equal.
    now apply (count_broadcasts_absent this type service services).
  - destruct Hin as [->|Hin]; [|now apply IH].
    assert (T : announces type service
                          (SendBroadcast (message_for this type service))
                = true) by now apply announces_message_for.
    rewrite T in E. discriminate.
Qed.

Lemma RegisteredService_contains_In (services : list RegisteredService.t)
      (service : RegisteredService.t) :
  set_sorted services = true ->
  (set_contains services service = true <-> In service services).
Proof.
  apply set_contains_In_iff. exact RegisteredService_equiv_eq.
Qed.

Lemma registered_services_stopped (this : Manager) :
  registered_services_ (state_of (stop_run_thread this))
  = registered_services_ this.
Proof. rewrite stop_run_thread_run. now destruct this as [g n r d c []]. Qed.

Lemma destructor_sweep_run (this : Manager) :
  (stop_run_thread ;; UnregisterServices_sweep) this
  = (Returned tt, state_of (stop_run_thread this),
     map (fun service => SendBroadcast (message_for this LEAVING service))
         (registered_services_ this)).
Proof.
  rewrite (bind_run _ _ _ _ _ _ _ _ _
                    (stop_run_thread_run this)
                    (UnregisterServices_sweep_run _)).
  rewrite stop_run_thread_run. now destruct this as [g n r d c []].
Qed.

Lemma Manager_destroy_run (this : Manager) :
  Manager_destroy this
  = (Returned tt,
     set_registered_services [] (state_of (stop_run_thread this)),
     map (fun service => SendBroadcast (message_for this LEAVING service))
         (registered_services_ this)).
Proof.
  unfold Manager_destroy.
  rewrite (bind_run _ _ _ _ _ _ _ _ _
                    (stop_run_thread_run this) (UnregisterServices_run _)).
  rewrite stop_run_thread_run. now destruct this as [g n r d c []].
Qed.

Lemma RegisterService_times_new (n : nat) (service : RegisteredService.t)
      (this : Manager) :
  set_contains (registered_services_ this) service = false ->
  RegisterService_times (S n) service this
  = (Returned (true :: repeat false n),
     set_registered_services
       (fst (set_insert (registered_services_ this) service)) this,
     [SendBroadcast (message_for this OFFER service)]).
Proof.
  intros H. cbn [RegisterService_times]. unfold bind.
  rewrite (RegisterService_new _ _ H).
  rewrite RegisterService_times_known
    by (cbn; apply set_contains_insert).
  reflexivity.
Qed.

(** ** Claims on registration and shutdown *)

(** C3: on destruction of the Manager, once the receive thread is stopped,
    the sweep emits one LEAVING broadcast per service of
    [registered_services_], in the order of the set, and nothing else; for
    every service in the set exactly one LEAVING is emitted, for any other
    service none.  The set is still intact when the last of them has been
    emitted, and the destructor then clears it without any further event. *)
Theorem Manager_destroy_emits_LEAVING (this : Manager) :
  set_sorted (registered_services_ this) = true ->
  let services := registered_services_ this in
  let swept := (stop_run_thread ;; UnregisterServices_sweep) this in
  events_of swept
  = map (fun service => SendBroadcast (message_for this LEAVING service))
        services
  /\ registered_services_ (state_of swept) = services
  /\ (forall service, In service services ->
                      count_broadcasts LEAVING service (events_of swept)
                      = 1%nat)
  /\ (forall service, ~ In service services ->
                      count_broadcasts LEAVING service (events_of swept)
                      = 0%nat)
  /\ Manager_destroy this
     = (Returned tt, set_registered_services [] (state_of swept),
        events_of swept)
  /\ registered_services_ (state_of (Manager_destroy this)) = [].
Proof.
  intros Hs services swept. subst services swept.
  rewrite destructor_sweep_run, Manager_destroy_run.
  cbn [events_of state_of fst snd].
  split; [reflexivity|]. split; [apply registered_services_stopped|].
  split; [|split; [|split]].
  - intros service Hin. apply count_broadcasts_once; [|exact Hin].
    now apply set_sorted_NoDup.
  - intros service Hin. now apply count_broadcasts_absent.
  - reflexivity.
  - reflexivity.
Qed.

Lemma Manager_destroy_emits_LEAVING_witness :
  set_sorted (registered_services_ peer_a) = true
  /\ events_of (Manager_destroy peer_a)
     = [SendBroadcast (message_for peer_a LEAVING control_7000);
        SendBroadcast (message_for peer_a LEAVING data_9000)]
  /\ count_broadcasts LEAVING data_9000
       (events_of ((stop_run_thread ;; UnregisterServices_sweep) peer_a))
     = 1%nat.
Proof.
  split; [reflexivity|]. split; [reflexivity|].
  apply (Manager_destroy_emits_LEAVING peer_a); [reflexivity|].
  right. left. reflexivity.
Defined.

(** C4 (what the code does when the service is already registered): peer A
    has CONTROL on port 7000 registered; [RegisterService] on that service
    returns false on the first call, emits nothing and leaves the Manager as
    it was. *)
Lemma RegisterService_registered_returns_false :
  In control_7000 (registered_services_ peer_a)
  /\ RegisterService_times 1 control_7000 peer_a
     = (Returned [false], peer_a, []).
Proof. split; [now left | reflexivity]. Qed.

(** C4 (amended): for a service that is not yet in the registered set and
    every n >= 1, n successive [RegisterService] calls return true the first
    time and false every later time, emit exactly one broadcast, the OFFER
    for that service, and leave the set with the service inserted once. *)
Theorem RegisterService_times_unregistered (n : nat)
        (service : RegisteredService.t) (this : Manager) :
  set_contains (registered_services_ this) service = false ->
  (1 <= n)%nat ->
  let r := RegisterService_times n service this in
  result_of r = Returned (true :: repeat false (n - 1))
  /\ events_of r = [SendBroadcast (message_for this OFFER service)]
  /\ count_broadcasts OFFER service (events_of r) = 1%nat
  /\ state_of r
     = set_registered_services
         (fst (set_insert (registered_services_ this) service)) this
  /\ In service (registered_services_ (state_of r))
  /\ length (registered_services_ (state_of r))
     = S (length (registered_services_ this)).
Proof.
  intros H Hn r. subst r.
  destruct n as [|n]; [lia|].
  replace (S n - 1)%nat with n by lia.
  rewrite (RegisterService_times_new _ _ _ H).
  cbn [result_of events_of state_of fst snd registered_services_
       set_registered_services].
  split; [reflexivity|]. split; [reflexivity|].
  split.
  - apply (count_broadcasts_once this OFFER service [service]).
    + constructor; [intros [] | constructor].
    + now left.
  - split; [reflexivity|].
    split; [now apply set_insert_In_new | now apply set_insert_length].
Qed.

Lemma RegisterService_times_unregistered_witness :
  set_contains (registered_services_ fresh_a) control_7000 = false
  /\ (1 <= 3)%nat
  /\ result_of (RegisterService_times 3 control_7000 fresh_a)
     = Returned [true; false; false]
  /\ events_of (RegisterService_times 3 control_7000 fresh_a)
     = [SendBroadcast (message_for fresh_a OFFER control_7000)].
Proof.
  split; [reflexivity|]. split; [lia|].
  destruct (RegisterService_times_unregistered 3 control_7000 fresh_a)
    as (Hr & He & _); [reflexivity | lia |].
  split; [exact Hr | exact He].
Defined.

(** ** The containers stay sorted *)

Lemma Manager_wf_iff (this : Manager) :
  Manager_wf this = true <->
  set_sorted (registered_services_ this) = true
  /\ set_sorted (discovered_services_ this) = true
  /\ set_sorted (discover_callbacks_ this) = true.
Proof.
  unfold Manager_wf. rewrite !andb_true_iff. tauto.
Qed.

Lemma Manager_wf_new (group_hash name_hash : MD5Hash) :
  Manager_wf (Manager_new group_hash name_hash) = true.
Proof. reflexivity. Qed.

Lemma Manager_wf_RegisterService (service : RegisteredService.t)
      (this : Manager) :
  Manager_wf this = true ->
  Manager_wf (state_of (RegisterService service this)) = true.
Proof.
  intros H. destruct (set_contains (registered_services_ this) service) eqn:E.
  - now rewrite (RegisterService_known _ _ E).
  - rewrite (RegisterService_new _ _ E).
    apply Manager_wf_iff in H as (Hr & Hd & Hc).
    apply Manager_wf_iff. cbn. repeat split; try assumption.
    now apply set_sorted_insert.
Qed.

Lemma Manager_wf_UnregisterService (service : RegisteredService.t)
      (this : Manager) :
  Manager_wf this = true ->
  Manager_wf (state_of (UnregisterService service this)) = true.
Proof.
  intros H. destruct (set_contains (registered_services_ this) service) eqn:E.
  - rewrite (UnregisterService_known _ _ E).
    apply Manager_wf_iff in H as (Hr & Hd & Hc).
    apply Manager_wf_iff. cbn. repeat split; try assumption.
    now apply set_sorted_erase.
  - now rewrite (UnregisterService_unknown _ _ E).
Qed.

Lemma Manager_wf_UnregisterServices (this : Manager) :
  Manager_wf this = true ->
  Manager_wf (state_of (UnregisterServices this)) = true.
Proof.
  intros H. rewrite UnregisterServices_run.
  apply Manager_wf_iff in H as (Hr & Hd & Hc).
  apply Manager_wf_iff. cbn. now repeat split.
Qed.

Lemma Manager_wf_RegisterDiscoverCallback (callback data : N)
      (this : Manager) :
  Manager_wf this = true ->
  Manager_wf (state_of (RegisterDiscoverCallback callback data this)) = true.
Proof.
  intros H. apply Manager_wf_iff in H as (Hr & Hd & Hc).
  apply Manager_wf_iff. cbn. repeat split; try assumption.
  now apply set_sorted_insert.
Qed.

Lemma Manager_wf_UnregisterDiscoverCallback (callback data : N)
      (this : Manager) :
  Manager_wf this = true ->
  Manager_wf (state_of (UnregisterDiscoverCallback callback data this))
  = true.
Proof.
  intros H. apply Manager_wf_iff in H as (Hr & Hd & Hc).
  apply Manager_wf_iff. cbn. repeat split; try assumption.
  now apply set_sorted_erase.
Qed.

Lemma Manager_wf_Run_dispatch (type : MessageType)
      (service : DiscoveredService.t) (this : Manager) :
  Manager_wf this = true ->
  Manager_wf (state_of (Run_dispatch type service this)) = true.
Proof.
  intros H. destruct type.
  - now rewrite Run_dispatch_REQUEST.
  - destruct (set_contains (discovered_services_ this) service) eqn:E.
    + now rewrite (Run_dispatch_OFFER_known _ _ E).
    + rewrite (Run_dispatch_OFFER_new _ _ E).
      apply Manager_wf_iff in H as (Hr & Hd & Hc).
      apply Manager_wf_iff. cbn. repeat split; try assumption.
      now apply set_sorted_insert.
  - destruct (set_contains (discovered_services_ this) service) eqn:E.
    + rewrite (Run_dispatch_LEAVING_known _ _ E).
      apply Manager_wf_iff in H as (Hr & Hd & Hc).
      apply Manager_wf_iff. cbn. repeat split; try assumption.
      now apply set_sorted_erase.
    + now rewrite (Run_dispatch_LEAVING_unknown _ _ E).
Qed.

Lemma Manager_wf_Run_iteration (raw_msg : BroadcastMessage)
      (this : Manager) :
  Manager_wf this = true ->
  Manager_wf (state_of (Run_iteration raw_msg this)) = true.
Proof.
  intros H.
  destruct (Message.Parse (content raw_msg)) as [error|chirp_msg] eqn:HP.
  - now rewrite (Run_iteration_malformed _ _ _ HP).
  - rewrite (Run_iteration_decoded _ _ _ HP).
    destruct (MD5Hash_neq _ (group_hash_ this)); [exact H|].
    destruct (MD5Hash_neq _ (name_hash_ this)); [exact H|].
    now apply Manager_wf_Run_dispatch.
Qed.

Lemma Manager_wf_Run (received : list BroadcastMessage) (this : Manager) :
  Manager_wf this = true ->
  Manager_wf (state_of (Run received this)) = true.
Proof.
  revert this. induction received as [|raw_msg received IH]; intros this H;
    [exact H|].
  unfold Run in *. cbn [for_each]. unfold bind.
  pose proof (Manager_wf_Run_iteration raw_msg this H) as H1.
  pose proof (Run_iteration_returns raw_msg this) as R.
  destruct (Run_iteration raw_msg this) as [[r this1] events1].
  unfold result_of, state_of in R, H1. simpl in R, H1. subst r.
  specialize (IH this1 H1).
  now destruct (for_each received Run_iteration this1) as [[r this2] events2].
Qed.

(** ** The [switch] on a message that reached it *)

(** Once an OFFER reaches the [switch], the service is inserted exactly when
    it is not yet known, and then every callback entry is started once with
    [departing = false]; a known service changes nothing.  LEAVING is the
    mirror image. *)
Lemma Run_dispatch_OFFER_LEAVING (service : DiscoveredService.t)
      (this : Manager) :
  set_sorted (discovered_services_ this) = true ->
  let offered := Run_dispatch OFFER service this in
  let left := Run_dispatch LEAVING service this in
  set_contains (discovered_services_ (state_of offered)) service = true
  /\ events_of offered
     = (if set_contains (discovered_services_ this) service then []
        else map (fun cb => SpawnCallback cb service false)
                 (discover_callbacks_ this))
  /\ (set_contains (discovered_services_ this) service = true ->
      state_of offered = this)
  /\ set_contains (discovered_services_ (state_of left)) service = false
  /\ events_of left
     = (if set_contains (discovered_services_ this) service
        then map (fun cb => SpawnCallback cb service true)
                 (discover_callbacks_ this)
        else [])
  /\ (set_contains (discovered_services_ this) service = false ->
      state_of left = this).
Proof.
  intros Hs offered left. subst offered left.
  destruct (set_contains (discovered_services_ this) service) eqn:E.
  - rewrite (Run_dispatch_OFFER_known _ _ E),
      (Run_dispatch_LEAVING_known _ _ E).
    cbn. repeat split; try assumption; try discriminate.
    now apply set_contains_erase.
  - rewrite (Run_dispatch_OFFER_new _ _ E),
      (Run_dispatch_LEAVING_unknown _ _ E).
    cbn. repeat split; try assumption; try discriminate.
    apply set_contains_insert.
Qed.

(** * Further properties *)

(** ** More on the ordered set *)

Section StdSetRoundTrips.

Context {T : Type} {L : Less T} {SWO : StrictWeakOrder T}.

(** Erasing a key equivalent to the value just inserted undoes the insertion. *)
Lemma set_erase_insert (s : list T) (value key : T) :
  set_contains s value = false ->
  less value key = false -> less key value = false ->
  fst (set_erase (fst (set_insert s value)) key) = s.
Proof.
  intros Hc H1 H2.
  induction s as [|x s IH]; simpl in *.
  - now rewrite H1, H2.
  - destruct (less value x) eqn:E1.
    + simpl. now rewrite H1, H2.
    + destruct (less x value) eqn:E2; [|discriminate].
      specialize (IH Hc).
      destruct (set_insert s value) as [r inserted]. simpl in *.
      destruct (less_equiv_eq value key H1 H2 x) as [Hl Hr].
      rewrite <- Hl, <- Hr, E1, E2.
      destruct (set_erase r key) as [r' count]. simpl in *. now f_equal.
Qed.

(** An equivalent key is found exactly when the value is. *)
Lemma set_contains_equiv (s : list T) (value key : T) :
  less value key = false -> less key value = false ->
  set_contains s key = set_contains s value.
Proof.
  intros H1 H2. induction s as [|x s IH]; simpl; [reflexivity|].
  destruct (less_equiv_eq value key H1 H2 x) as [Hl Hr].
  now rewrite <- Hl, <- Hr, IH.
Qed.

(** Inserting back the very element that was erased restores the set. *)
Lemma set_insert_erase (s : list T) (value : T) :
  set_sorted s = true -> In value s ->
  fst (set_insert (fst (set_erase s value)) value) = s.
Proof.
  induction s as [|x s IH]; [intros _ []|].
  intros Hs Hin. pose proof (set_sorted_Forall x s Hs) as F.
  rewrite Forall_forall in F.
  pose proof (set_sorted_tail x s Hs) as Hs'. simpl.
  destruct Hin as [->|Hin].
  - rewrite less_irrefl. cbn [fst].
    destruct s as [|y s]; simpl; [reflexivity|].
    now rewrite (F y (or_introl eq_refl)).
  - pose proof (F value Hin) as Hlt.
    destruct (less value x) eqn:E.
    + pose proof (less_trans _ _ _ Hlt E) as C.
      now rewrite less_irrefl in C.
    + rewrite Hlt. specialize (IH Hs' Hin).
      destruct (set_erase s value) as [r count]. simpl in *.
      rewrite E, Hlt.
      destruct (set_insert r value) as [r' inserted]. simpl in *.
      now f_equal.
Qed.

(** Membership after insertion and erasure, for an order in which
    equivalent values are equal. *)
Lemma set_insert_In_iff (s : list T) (value y : T) :
  (forall a b : T, less a b = false -> less b a = false -> a = b) ->
  In y (fst (set_insert s value)) <-> y = value \/ In y s.
Proof.
  intros total. split; [apply set_insert_In|].
  intros [->|H]; [|now apply set_insert_In_old].
  destruct (set_contains s value) eqn:E.
  - rewrite (set_insert_present _ _ E).
    clear -E total. induction s as [|x s IH]; simpl in *; [discriminate|].
    destruct (less value x) eqn:E1; [discriminate|].
    destruct (less x value) eqn:E2; [right; now apply IH|].
    left. now apply total.
  - now apply set_insert_In_new.
Qed.

Lemma set_erase_In_iff (s : list T) (key y : T) :
  (forall a b : T, less a b = false -> less b a = false -> a = b) ->
  set_sorted s = true ->
  In y (fst (set_erase s key)) <-> In y s /\ y <> key.
Proof.
  intros total Hs. split.
  - intros H. split; [now apply set_erase_In in H|].
    intros ->.
    apply (set_contains_In _ _ (set_sorted_erase _ key Hs)) in H.
    now rewrite (set_contains_erase _ _ Hs) in H.
  - intros [Hin Hne]. revert Hs Hin.
    induction s as [|x s IH]; [intros _ []|].
    intros Hs Hin. pose proof (set_sorted_tail x s Hs) as Hs'. simpl.
    destruct (less key x) eqn:E1; [exact Hin|].
    destruct (less x key) eqn:E2.
    + specialize (IH Hs').
      destruct (set_erase s key) as [r count]. simpl in *.
      destruct Hin as [->|Hin]; [now left | right; now apply IH].
    + assert (x = key) by now apply total. subst x.
      destruct Hin as [E|Hin]; [now elim Hne | exact Hin].
Qed.

(** Two sorted sets with the same elements are the same list. *)
Lemma set_sorted_ext (s1 s2 : list T) :
  set_sorted s1 = true -> set_sorted s2 = true ->
  (forall y, In y s1 <-> In y s2) -> s1 = s2.
Proof.
  revert s2. induction s1 as [|x s1 IH]; intros [|y s2] H1 H2 Hm.
  - reflexivity.
  - destruct (proj2 (Hm y) (or_introl eq_refl)).
  - destruct (proj1 (Hm x) (or_introl eq_refl)).
  - pose proof (set_sorted_Forall x s1 H1) as F1.
    pose proof (set_sorted_Forall y s2 H2) as F2.
    rewrite Forall_forall in F1, F2.
    assert (x = y) as ->.
    { destruct (proj1 (Hm x) (or_introl eq_refl)) as [E|Hx]; [now symmetry|].
      destruct (proj2 (Hm y) (or_introl eq_refl)) as [E|Hy]; [exact E|].
      pose proof (less_trans _ _ _ (F1 y Hy) (F2 x Hx)) as C.
      now rewrite less_irrefl in C. }
    f_equal. apply IH.
    + now apply set_sorted_tail in H1.
    + now apply set_sorted_tail in H2.
    + intros z. split; intros Hz.
      * destruct (proj1 (Hm z) (or_intror Hz)) as [E|Hz']; [|exact Hz'].
        subst z. pose proof (F1 y Hz) as C. now rewrite less_irrefl in C.
      * destruct (proj2 (Hm z) (or_intror Hz)) as [E|Hz']; [|exact Hz'].
        subst z. pose proof (F2 y Hz) as C. now rewrite less_irrefl in C.
Qed.

(** The order of two insertions does not matter. *)
Lemma set_insert_comm (s : list T) (a b : T) :
  (forall x y : T, less x y = false -> less y x = false -> x = y) ->
  set_sorted s = true ->
  fst (set_insert (fst (set_insert s a)) b)
  = fst (set_insert (fst (set_insert s b)) a).
Proof.
  intros total Hs. apply set_sorted_ext.
  - now do 2 apply set_sorted_insert.
  - now do 2 apply set_sorted_insert.
  - intros y. rewrite !(set_insert_In_iff _ _ _ total). tauto.
Qed.

End StdSetRoundTrips.

(** ** The two orderings as orders *)

Lemma less_asym {T : Type} {L : Less T} {SWO : StrictWeakOrder T} (x y : T) :
  less x y = true -> less y x = false.
Proof.
  intros H. destruct (less y x) eqn:E; [|reflexivity].
  pose proof (less_trans _ _ _ H E) as C. now rewrite less_irrefl in C.
Qed.

(** X1: [RegisteredService::operator<] is a strict total order on
    (identifier, port): irreflexive, asymmetric and transitive; two services
    neither of which sorts before the other are the same service; and a
    smaller identifier tag decides the comparison whatever the ports. *)
Theorem RegisteredService_lt_total_order :
  (forall x, RegisteredService.lt x x = false)
  /\ (forall x y, RegisteredService.lt x y = true ->
                  RegisteredService.lt y x = false)
  /\ (forall x y z, RegisteredService.lt x y = true ->
                    RegisteredService.lt y z = true ->
                    RegisteredService.lt x z = true)
  /\ (forall x y, RegisteredService.lt x y = false ->
                  RegisteredService.lt y x = false -> x = y)
  /\ (forall x y,
         to_underlying (RegisteredService.identifier x)
         < to_underlying (RegisteredService.identifier y) ->
         RegisteredService.lt x y = true /\ RegisteredService.lt y x = false).
Proof.
  split; [exact (less_irrefl (T := RegisteredService.t))|].
  split; [exact (less_asym (T := RegisteredService.t))|].
  split; [exact (less_trans (T := RegisteredService.t))|].
  split; [exact RegisteredService_equiv_eq|].
  intros x y H.
  assert (Hlt : RegisteredService.lt x y = true)
    by (apply RegisteredService_lt_iff; now left).
  split; [exact Hlt|]. now apply (less_asym (T := RegisteredService.t)).
Qed.

(** X2: [DiscoveredService::operator<] is a strict weak order: irreflexive,
    asymmetric and transitive; two values are equivalent under it (neither
    sorts before the other) exactly when they have the same name hash,
    identifier and port, and equivalent values compare alike with every
    third value. *)
Theorem DiscoveredService_lt_strict_weak_order :
  (forall x, DiscoveredService.lt x x = false)
  /\ (forall x y, DiscoveredService.lt x y = true ->
                  DiscoveredService.lt y x = false)
  /\ (forall x y z, DiscoveredService.lt x y = true ->
                    DiscoveredService.lt y z = true ->
                    DiscoveredService.lt x z = true)
  /\ (forall x y,
         (DiscoveredService.lt x y = false
          /\ DiscoveredService.lt y x = false)
         <-> (DiscoveredService.name_hash x = DiscoveredService.name_hash y
              /\ DiscoveredService.identifier x
                 = DiscoveredService.identifier y
              /\ DiscoveredService.port x = DiscoveredService.port y))
  /\ (forall x y z,
         DiscoveredService.lt x y = false ->
         DiscoveredService.lt y x = false ->
         DiscoveredService.lt x z = DiscoveredService.lt y z
         /\ DiscoveredService.lt z x = DiscoveredService.lt z y).
Proof.
  split; [exact (less_irrefl (T := DiscoveredService.t))|].
  split; [exact (less_asym (T := DiscoveredService.t))|].
  split; [exact (less_trans (T := DiscoveredService.t))|].
  split.
  - intros x y. split.
    + intros [H1 H2]. now apply DiscoveredService_equiv_key.
    + intros (En & Ei & Ep).
      destruct (DiscoveredService_lt_key x y y En Ei Ep) as [Hl Hr].
      rewrite Hl, Hr.
      split; exact (less_irrefl (T := DiscoveredService.t) y).
  - intros x y z H1 H2.
    exact (less_equiv_eq (T := DiscoveredService.t) x y H1 H2 z).
Qed.

(** ** Registration: round trips and composition *)

Lemma RegisterService_run (service : RegisteredService.t) (this : Manager) :
  RegisterService service this
  = (Returned (negb (set_contains (registered_services_ this) service)),
     set_registered_services
       (fst (set_insert (registered_services_ this) service)) this,
     if set_contains (registered_services_ this) service then []
     else [SendBroadcast (message_for this OFFER service)]).
Proof.
  destruct (set_contains (registered_services_ this) service) eqn:E.
  - rewrite (RegisterService_known _ _ E), (set_insert_present _ _ E).
    now rewrite set_registered_services_same.
  - now rewrite (RegisterService_new _ _ E).
Qed.

Lemma UnregisterService_run (service : RegisteredService.t) (this : Manager) :
  UnregisterService service this
  = (Returned (set_contains (registered_services_ this) service),
     set_registered_services
       (fst (set_erase (registered_services_ this) service)) this,
     if set_contains (registered_services_ this) service
     then [SendBroadcast (message_for this LEAVING service)]
     else []).
Proof.
  destruct (set_contains (registered_services_ this) service) eqn:E.
  - now rewrite (UnregisterService_known _ _ E).
  - rewrite (UnregisterService_unknown _ _ E), (set_erase_absent _ _ E).
    now rewrite set_registered_services_same.
Qed.

Lemma set_registered_services_twice (s1 s2 : list RegisteredService.t)
      (this : Manager) :
  set_registered_services s2 (set_registered_services s1 this)
  = set_registered_services s2 this.
Proof. reflexivity. Qed.

(** X3: registering a service that is not yet registered and unregistering
    it right away returns true both times, broadcasts the OFFER and then the
    LEAVING for it, and leaves the Manager exactly as it was. *)
Theorem RegisterService_UnregisterService_roundtrip
        (service : RegisteredService.t) (this : Manager) :
  set_contains (registered_services_ this) service = false ->
  (inserted <- RegisterService service ;;
   erased <- UnregisterService service ;;
   ret (inserted, erased)) this
  = (Returned (true, true), this,
     [SendBroadcast (message_for this OFFER service);
      SendBroadcast (message_for this LEAVING service)]).
Proof.
  intros H. unfold bind.
  rewrite (RegisterService_new _ _ H).
  rewrite UnregisterService_known by (cbn; apply set_contains_insert).
  cbn [registered_services_ set_registered_services ret app].
  rewrite set_erase_insert
    by (exact H || exact (less_irrefl (T := RegisteredService.t) service)).
  replace (set_registered_services (registered_services_ this) _)
    with this by now destruct this.
  reflexivity.
Qed.

Lemma RegisterService_UnregisterService_roundtrip_witness :
  set_contains (registered_services_ fresh_a) control_7000 = false
  /\ (inserted <- RegisterService control_7000 ;;
      erased <- UnregisterService control_7000 ;;
      ret (inserted, erased)) fresh_a
     = (Returned (true, true), fresh_a,
        [SendBroadcast (message_for fresh_a OFFER control_7000);
         SendBroadcast (message_for fresh_a LEAVING control_7000)]).
Proof.
  split; [reflexivity|].
  apply (RegisterService_UnregisterService_roundtrip control_7000 fresh_a).
  reflexivity.
Defined.

(** X4: unregistering a registered service and registering it again returns
    true both times, broadcasts the LEAVING and then the OFFER for it, and
    leaves the Manager exactly as it was: the service is back at its place in
    the set. *)
Theorem UnregisterService_RegisterService_roundtrip
        (service : RegisteredService.t) (this : Manager) :
  set_sorted (registered_services_ this) = true ->
  In service (registered_services_ this) ->
  (erased <- UnregisterService service ;;
   inserted <- RegisterService service ;;
   ret (erased, inserted)) this
  = (Returned (true, true), this,
     [SendBroadcast (message_for this LEAVING service);
      SendBroadcast (message_for this OFFER service)]).
Proof.
  intros Hs Hin. unfold bind.
  rewrite UnregisterService_known by now apply set_contains_In.
  rewrite RegisterService_new
    by (cbn; now apply set_contains_erase).
  cbn [registered_services_ set_registered_services ret app].
  rewrite (set_insert_erase _ _ Hs Hin).
  replace (set_registered_services (registered_services_ this) _)
    with this by now destruct this.
  reflexivity.
Qed.

Lemma UnregisterService_RegisterService_roundtrip_witness :
  set_sorted (registered_services_ peer_a) = true
  /\ In data_9000 (registered_services_ peer_a)
  /\ (erased <- UnregisterService data_9000 ;;
      inserted <- RegisterService data_9000 ;;
      ret (erased, inserted)) peer_a
     = (Returned (true, true), peer_a,
        [SendBroadcast (message_for peer_a LEAVING data_9000);
         SendBroadcast (message_for peer_a OFFER data_9000)]).
Proof.
  split; [reflexivity|]. split; [right; now left|].
  apply (UnregisterService_RegisterService_roundtrip data_9000 peer_a);
    [reflexivity | right; now left].
Defined.

(** X5: the order in which two services are registered does not matter for
    the Manager that results: the registered set, and with it the order of
    the LEAVING broadcasts of a later sweep, is the same. *)
Theorem RegisterService_order_irrelevant
        (a b : RegisteredService.t) (this : Manager) :
  set_sorted (registered_services_ this) = true ->
  state_of ((RegisterService a ;; RegisterService b) this)
  = state_of ((RegisterService b ;; RegisterService a) this)
  /\ events_of (UnregisterServices
                  (state_of ((RegisterService a ;; RegisterService b) this)))
     = events_of (UnregisterServices
                    (state_of ((RegisterService b ;; RegisterService a)
                                 this))).
Proof.
  intros Hs.
  assert (E : state_of ((RegisterService a ;; RegisterService b) this)
              = state_of ((RegisterService b ;; RegisterService a) this)).
  { unfold bind. rewrite (RegisterService_run a this).
    rewrite (RegisterService_run b this).
    rewrite (RegisterService_run b (set_registered_services _ this)).
    rewrite (RegisterService_run a (set_registered_services _ this)).
    cbn [state_of fst snd registered_services_ set_registered_services].
    rewrite !set_registered_services_twice. f_equal.
    now apply set_insert_comm; [exact RegisteredService_equiv_eq|]. }
  split; [exact E | now rewrite E].
Qed.

Lemma RegisterService_order_irrelevant_witness :
  set_sorted (registered_services_ fresh_a) = true
  /\ registered_services_
       (state_of ((RegisterService data_9000 ;; RegisterService control_7000)
                    fresh_a))
     = [control_7000; data_9000]
  /\ state_of ((RegisterService data_9000 ;; RegisterService control_7000)
                 fresh_a)
     = state_of ((RegisterService control_7000 ;; RegisterService data_9000)
                   fresh_a).
Proof.
  split; [reflexivity|]. split; [reflexivity|].
  apply (RegisterService_order_irrelevant data_9000 control_7000 fresh_a).
  reflexivity.
Defined.

(** X6: the snapshot [GetRegisteredServices] returns right after
    [RegisterService] holds the service and whatever was registered before,
    and nothing else; right after [UnregisterService] it holds whatever was
    registered before except the service.  Both snapshots are strictly
    ascending, so they hold no service twice. *)
Theorem GetRegisteredServices_after_registration
        (service : RegisteredService.t) (this : Manager) :
  set_sorted (registered_services_ this) = true ->
  exists added removed,
    result_of ((RegisterService service ;; GetRegisteredServices) this)
    = Returned added
    /\ result_of ((UnregisterService service ;; GetRegisteredServices) this)
       = Returned removed
    /\ (forall y, In y added <->
                  y = service \/ In y (registered_services_ this))
    /\ (forall y, In y removed <->
                  In y (registered_services_ this) /\ y <> service)
    /\ set_sorted added = true /\ NoDup added
    /\ set_sorted removed = true /\ NoDup removed.
Proof.
  intros Hs.
  exists (fst (set_insert (registered_services_ this) service)),
    (fst (set_erase (registered_services_ this) service)).
  unfold bind. rewrite RegisterService_run, UnregisterService_run.
  cbn [GetRegisteredServices bind get ret result_of fst snd
       registered_services_ set_registered_services].
  split; [reflexivity|]. split; [reflexivity|].
  split; [intros y; apply set_insert_In_iff;
          exact RegisteredService_equiv_eq|].
  split; [intros y; apply set_erase_In_iff;
          [exact RegisteredService_equiv_eq | exact Hs]|].
  pose proof (set_sorted_insert _ service Hs) as Hi.
  pose proof (set_sorted_erase _ service Hs) as He.
  repeat split; try assumption; now apply set_sorted_NoDup.
Qed.

Lemma GetRegisteredServices_after_registration_witness :
  set_sorted (registered_services_ peer_a) = true
  /\ exists added removed,
      result_of ((RegisterService control_7000 ;; GetRegisteredServices)
                   peer_a) = Returned added
      /\ result_of ((UnregisterService control_7000 ;; GetRegisteredServices)
                      peer_a) = Returned removed
      /\ (forall y, In y added <->
                    y = control_7000 \/ In y (registered_services_ peer_a))
      /\ (forall y, In y removed <->
                    In y (registered_services_ peer_a) /\ y <> control_7000)
      /\ set_sorted added = true /\ NoDup added
      /\ set_sorted removed = true /\ NoDup removed.
Proof.
  split; [reflexivity|].
  apply (GetRegisteredServices_after_registration control_7000 peer_a).
  reflexivity.
Defined.

(** ** The callback registry *)

Lemma CallbackEntry_equiv_eq (a b : CallbackEntry) :
  less a b = false -> less b a = false -> a = b.
Proof.
  destruct a as [a1 a2], b as [b1 b2].
  unfold less, CallbackEntry_Less, CallbackEntry_lt. simpl.
  destruct (N.ltb_spec a1 b1); [discriminate|].
  destruct (N.ltb_spec b1 a1); [discriminate|].
  rewrite !N.ltb_ge. intros H1 H2. f_equal; lia.
Qed.

Lemma CallbackEntry_contains_In (callbacks : list CallbackEntry)
      (entry : CallbackEntry) :
  set_sorted callbacks = true ->
  (set_contains callbacks entry = true <-> In entry callbacks).
Proof. apply set_contains_In_iff. exact CallbackEntry_equiv_eq. Qed.

Lemma RegisterDiscoverCallback_run (callback data : N) (this : Manager) :
  RegisterDiscoverCallback callback data this
  = (Returned (negb (set_contains (discover_callbacks_ this)
                                  (callback, data))),
     set_discover_callbacks
       (fst (set_insert (discover_callbacks_ this) (callback, data))) this,
     []).
Proof.
  unfold RegisterDiscoverCallback, bind, get, modify, ret.
  now rewrite set_insert_inserted.
Qed.

Lemma UnregisterDiscoverCallback_run (callback data : N) (this : Manager) :
  UnregisterDiscoverCallback callback data this
  = (Returned (set_contains (discover_callbacks_ this) (callback, data)),
     set_discover_callbacks
       (fst (set_erase (discover_callbacks_ this) (callback, data))) this,
     []).
Proof.
  unfold UnregisterDiscoverCallback, bind, get, modify, ret.
  rewrite set_erase_count.
  now destruct (set_contains (discover_callbacks_ this) (callback, data)).
Qed.

Lemma set_discover_callbacks_same (this : Manager) :
  set_discover_callbacks (discover_callbacks_ this) this = this.
Proof. now destruct this. Qed.

(** X7: [RegisterDiscoverCallback] returns true exactly when the pair
    (callback, data) was not yet registered; afterwards the registry holds
    the pair and what it held before, nothing else; it touches nothing but
    the registry and emits nothing; and registering the same pair again
    returns false and changes nothing. *)
Theorem RegisterDiscoverCallback_inserts_once (callback data : N)
        (this : Manager) :
  set_sorted (discover_callbacks_ this) = true ->
  let r := RegisterDiscoverCallback callback data this in
  (result_of r = Returned true <->
   ~ In (callback, data) (discover_callbacks_ this))
  /\ (result_of r = Returned false <->
      In (callback, data) (discover_callbacks_ this))
  /\ (forall entry,
         In entry (discover_callbacks_ (state_of r)) <->
         entry = (callback, data) \/ In entry (discover_callbacks_ this))
  /\ registered_services_ (state_of r) = registered_services_ this
  /\ discovered_services_ (state_of r) = discovered_services_ this
  /\ events_of r = []
  /\ RegisterDiscoverCallback callback data (state_of r)
     = (Returned false, state_of r, []).
Proof.
  intros Hs r. subst r. rewrite RegisterDiscoverCallback_run.
  cbn [result_of state_of events_of fst snd discover_callbacks_
       registered_services_ discovered_services_ set_discover_callbacks].
  pose proof (CallbackEntry_contains_In _ (callback, data) Hs) as Hc.
  split; [|split; [|split; [|split; [|split; [|split]]]]];
    try reflexivity.
  - destruct (set_contains (discover_callbacks_ this) (callback, data));
      cbn; split; intros H; try discriminate; try reflexivity.
    + elim H. now apply Hc.
    + intros Hin. apply Hc in Hin. discriminate.
  - destruct (set_contains (discover_callbacks_ this) (callback, data));
      cbn; split; intros H; try discriminate; try reflexivity.
    + now apply Hc.
    + apply Hc in H. discriminate.
  - intros entry. apply set_insert_In_iff. exact CallbackEntry_equiv_eq.
  - rewrite RegisterDiscoverCallback_run.
    cbn [discover_callbacks_ set_discover_callbacks].
    pose proof (set_contains_insert (discover_callbacks_ this)
                                    (callback, data)) as Hi.
    rewrite Hi, (set_insert_present _ _ Hi). reflexivity.
Qed.

Lemma RegisterDiscoverCallback_inserts_once_witness :
  set_sorted (discover_callbacks_ peer_a) = true
  /\ result_of (RegisterDiscoverCallback 4096 0 peer_a) = Returned false
  /\ result_of (RegisterDiscoverCallback 4096 8 peer_a) = Returned true.
Proof.
  split; [reflexivity|]. split.
  - apply (RegisterDiscoverCallback_inserts_once 4096 0 peer_a);
      [reflexivity | now left].
  - apply (RegisterDiscoverCallback_inserts_once 4096 8 peer_a);
      [reflexivity|]. cbn. intros [H|[]]. discriminate H.
Defined.

(** X8: [UnregisterDiscoverCallback] returns true exactly when the pair
    (callback, data) was registered; afterwards the registry holds what it
    held before except that pair; it touches nothing but the registry and
    emits nothing; and when the pair was not registered the Manager is
    unchanged. *)
Theorem UnregisterDiscoverCallback_erases (callback data : N)
        (this : Manager) :
  set_sorted (discover_callbacks_ this) = true ->
  let r := UnregisterDiscoverCallback callback data this in
  (result_of r = Returned true <->
   In (callback, data) (discover_callbacks_ this))
  /\ (forall entry,
         In entry (discover_callbacks_ (state_of r)) <->
         In entry (discover_callbacks_ this) /\ entry <> (callback, data))
  /\ registered_services_ (state_of r) = registered_services_ this
  /\ discovered_services_ (state_of r) = discovered_services_ this
  /\ events_of r = []
  /\ (~ In (callback, data) (discover_callbacks_ this) ->
      r = (Returned false, this, [])).
Proof.
  intros Hs r. subst r. rewrite UnregisterDiscoverCallback_run.
  cbn [result_of state_of events_of fst snd discover_callbacks_
       registered_services_ discovered_services_ set_discover_callbacks].
  pose proof (CallbackEntry_contains_In _ (callback, data) Hs) as Hc.
  split; [|split; [|split; [|split; [|split]]]]; try reflexivity.
  - rewrite <- Hc. split; [now intros [= ->] | now intros ->].
  - intros entry. apply set_erase_In_iff;
      [exact CallbackEntry_equiv_eq | exact Hs].
  - intros Hn.
    destruct (set_contains (discover_callbacks_ this) (callback, data)) eqn:E.
    + elim Hn. now apply Hc.
    + rewrite (set_erase_absent _ _ E).
      now rewrite set_discover_callbacks_same.
Qed.

Lemma UnregisterDiscoverCallback_erases_witness :
  set_sorted (discover_callbacks_ peer_a) = true
  /\ result_of (UnregisterDiscoverCallback 4096 0 peer_a) = Returned true
  /\ discover_callbacks_ (state_of (UnregisterDiscoverCallback 4096 0 peer_a))
     = [].
Proof.
  split; [reflexivity|]. split; [|reflexivity].
  apply (UnregisterDiscoverCallback_erases 4096 0 peer_a);
    [reflexivity | now left].
Defined.

(** X9: registering a pair (callback, data) that is not yet registered and
    unregistering it right away returns true both times and leaves the
    Manager exactly as it was. *)
Theorem RegisterDiscoverCallback_Unregister_roundtrip (callback data : N)
        (this : Manager) :
  set_contains (discover_callbacks_ this) (callback, data) = false ->
  (inserted <- RegisterDiscoverCallback callback data ;;
   erased <- UnregisterDiscoverCallback callback data ;;
   ret (inserted, erased)) this
  = (Returned (true, true), this, []).
Proof.
  intros H. unfold bind.
  rewrite RegisterDiscoverCallback_run, UnregisterDiscoverCallback_run.
  cbn [discover_callbacks_ set_discover_callbacks ret app].
  rewrite H, set_contains_insert.
  rewrite set_erase_insert
    by (exact H || exact (less_irrefl (T := CallbackEntry) (callback, data))).
  replace (set_discover_callbacks (discover_callbacks_ this) _)
    with this by now destruct this.
  reflexivity.
Qed.

Lemma RegisterDiscoverCallback_Unregister_roundtrip_witness :
  set_contains (discover_callbacks_ peer_a) (4096, 8) = false
  /\ (inserted <- RegisterDiscoverCallback 4096 8 ;;
      erased <- UnregisterDiscoverCallback 4096 8 ;;
      ret (inserted, erased)) peer_a
     = (Returned (true, true), peer_a, []).
Proof.
  split; [reflexivity|].
  apply (RegisterDiscoverCallback_Unregister_roundtrip 4096 8 peer_a).
  reflexivity.
Defined.

(** ** The receive loop over a whole stream *)

Lemma Run_cons (raw_msg : BroadcastMessage) (rest : list BroadcastMessage)
      (this : Manager) :
  state_of (Run (raw_msg :: rest) this)
  = state_of (Run rest (state_of (Run_iteration raw_msg this)))
  /\ events_of (Run (raw_msg :: rest) this)
     = events_of (Run_iteration raw_msg this)
       ++ events_of (Run rest (state_of (Run_iteration raw_msg this))).
Proof.
  unfold Run. cbn [for_each]. unfold bind.
  pose proof (Run_iteration_returns raw_msg this) as R.
  destruct (Run_iteration raw_msg this) as [[r this1] events1].
  unfold result_of in R. cbn in R. subst r. cbn [state_of fst snd].
  now destruct (for_each rest Run_iteration this1) as [[r this2] events2].
Qed.

Lemma same_but_discovered_refl (this : Manager) :
  same_but_discovered this this.
Proof. now repeat split. Qed.

Lemma same_but_discovered_trans (a b c : Manager) :
  same_but_discovered a b -> same_but_discovered b c ->
  same_but_discovered a c.
Proof.
  unfold same_but_discovered.
  intros (A1 & A2 & A3 & A4 & A5) (B1 & B2 & B3 & B4 & B5).
  repeat split; congruence.
Qed.

Lemma same_but_discovered_set (s : list DiscoveredService.t)
      (this : Manager) :
  same_but_discovered this (set_discovered_services s this).
Proof. now repeat split. Qed.

Lemma Run_dispatch_frame (type : MessageType)
      (service : DiscoveredService.t) (this : Manager) :
  same_but_discovered this (state_of (Run_dispatch type service this)).
Proof.
  destruct type.
  - rewrite Run_dispatch_REQUEST. apply same_but_discovered_refl.
  - destruct (set_contains (discovered_services_ this) service) eqn:E.
    + rewrite (Run_dispatch_OFFER_known _ _ E).
      apply same_but_discovered_refl.
    + rewrite (Run_dispatch_OFFER_new _ _ E). apply same_but_discovered_set.
  - destruct (set_contains (discovered_services_ this) service) eqn:E.
    + rewrite (Run_dispatch_LEAVING_known _ _ E).
      apply same_but_discovered_set.
    + rewrite (Run_dispatch_LEAVING_unknown _ _ E).
      apply same_but_discovered_refl.
Qed.

Lemma Run_iteration_frame (raw_msg : BroadcastMessage) (this : Manager) :
  same_but_discovered this (state_of (Run_iteration raw_msg this)).
Proof.
  destruct (Message.Parse (content raw_msg)) as [error|chirp_msg] eqn:HP.
  - rewrite (Run_iteration_malformed _ _ _ HP).
    apply same_but_discovered_refl.
  - rewrite (Run_iteration_decoded _ _ _ HP).
    destruct (MD5Hash_neq _ (group_hash_ this));
      [apply same_but_discovered_refl|].
    destruct (MD5Hash_neq _ (name_hash_ this));
      [apply same_but_discovered_refl|].
    apply Run_dispatch_frame.
Qed.

Lemma Run_dispatch_events (type : MessageType)
      (service : DiscoveredService.t) (this : Manager) :
  Forall (replay_or_callback this)
         (events_of (Run_dispatch type service this)).
Proof.
  assert (CB : forall departing,
             Forall (replay_or_callback this)
                    (map (fun cb => SpawnCallback cb service departing)
                         (discover_callbacks_ this))).
  { intros departing. apply Forall_forall. intros e He.
    apply in_map_iff in He as (cb & <- & Hin). exact Hin. }
  destruct type.
  - rewrite Run_dispatch_REQUEST. cbn [events_of snd].
    apply Forall_forall. intros e He.
    apply in_map_iff in He as (s & <- & Hin).
    apply filter_In in Hin as [Hin _]. exists s. now split.
  - destruct (set_contains (discovered_services_ this) service) eqn:E.
    + rewrite (Run_dispatch_OFFER_known _ _ E). constructor.
    + rewrite (Run_dispatch_OFFER_new _ _ E). apply CB.
  - destruct (set_contains (discovered_services_ this) service) eqn:E.
    + rewrite (Run_dispatch_LEAVING_known _ _ E). apply CB.
    + rewrite (Run_dispatch_LEAVING_unknown _ _ E). constructor.
Qed.

Lemma Run_iteration_events (raw_msg : BroadcastMessage) (this : Manager) :
  Forall (replay_or_callback this) (events_of (Run_iteration raw_msg this)).
Proof.
  destruct (Message.Parse (content raw_msg)) as [error|chirp_msg] eqn:HP.
  - rewrite (Run_iteration_malformed _ _ _ HP). constructor.
  - rewrite (Run_iteration_decoded _ _ _ HP).
    destruct (MD5Hash_neq _ (group_hash_ this)); [constructor|].
    destruct (MD5Hash_neq _ (name_hash_ this)); [constructor|].
    apply Run_dispatch_events.
Qed.

Lemma replay_or_callback_same (a b : Manager) (e : Event) :
  same_but_discovered a b -> replay_or_callback b e -> replay_or_callback a e.
Proof.
  intros (Hg & Hn & Hr & Hc & _). destruct e as [msg|cb d dep]; simpl.
  - intros (s & Hin & ->). exists s. rewrite Hr. split; [exact Hin|].
    unfold message_for. now rewrite Hg, Hn.
  - now rewrite Hc.
Qed.

(** X10: whatever datagrams arrive, the receive loop returns normally and
    changes nothing of the Manager but the discovered set: the group and name
    hashes, the registered set, the callback registry and the thread handle
    are as before. *)
Theorem Run_changes_only_discovered (received : list BroadcastMessage)
        (this : Manager) :
  result_of (Run received this) = Returned tt
  /\ group_hash_ (state_of (Run received this)) = group_hash_ this
  /\ name_hash_ (state_of (Run received this)) = name_hash_ this
  /\ registered_services_ (state_of (Run received this))
     = registered_services_ this
  /\ discover_callbacks_ (state_of (Run received this))
     = discover_callbacks_ this
  /\ run_thread_ (state_of (Run received this)) = run_thread_ this.
Proof.
  split; [apply Run_returns|].
  assert (F : same_but_discovered this (state_of (Run received this))).
  { revert this. induction received as [|raw_msg received IH]; intros this.
    - apply same_but_discovered_refl.
    - destruct (Run_cons raw_msg received this) as [-> _].
      eapply same_but_discovered_trans;
        [apply Run_iteration_frame | apply IH]. }
  destruct F as (Hg & Hn & Hr & Hc & Ht). now repeat split.
Qed.

Lemma Run_events (received : list BroadcastMessage) (this : Manager) :
  Forall (replay_or_callback this) (events_of (Run received this)).
Proof.
  revert this. induction received as [|raw_msg received IH]; intros this.
  - constructor.
  - destruct (Run_cons raw_msg received this) as [_ ->].
    apply Forall_app. split; [apply Run_iteration_events|].
    eapply Forall_impl; [|apply IH].
    intros e. apply replay_or_callback_same, Run_iteration_frame.
Qed.

(** X11: whatever datagrams arrive, every event of the receive loop is
    either the broadcast of an OFFER, with the Manager's own group and name
    hash, for a service of its registered set, or the start of a callback of
    its registry: the loop never broadcasts a REQUEST or a LEAVING, and never
    announces a service that is not registered. *)
Theorem Run_events_replay_or_callback (received : list BroadcastMessage)
        (this : Manager) :
  Forall (replay_or_callback this) (events_of (Run received this))
  /\ Forall (fun e =>
               forall service,
                 announces REQUEST service e = false
                 /\ announces LEAVING service e = false)
            (events_of (Run received this)).
Proof.
  split; [apply Run_events|].
  eapply Forall_impl; [|apply Run_events].
  intros [msg|cb d dep]; simpl; [|now intros _ service].
  intros (s & _ & ->) service. now split.
Qed.

(** X12: as the loop is written, a datagram is dropped when its name hash
    differs from the Manager's own: over a stream in which every datagram
    that parses carries another name hash, the receive loop leaves the
    Manager unchanged and emits nothing. *)
Theorem Run_drops_other_names (received : list BroadcastMessage)
        (this : Manager) :
  (forall raw_msg chirp_msg,
      In raw_msg received ->
      Message.Parse (content raw_msg) = inr chirp_msg ->
      Message.GetNameHash chirp_msg <> name_hash_ this) ->
  Run received this = (Returned tt, this, []).
Proof.
  induction received as [|raw_msg received IH]; intros H; [reflexivity|].
  assert (E : Run_iteration raw_msg this = (Returned tt, this, [])).
  { destruct (Message.Parse (content raw_msg)) as [error|chirp_msg] eqn:HP.
    - now apply (Run_iteration_malformed _ error).
    - apply (Run_iteration_name_filter _ chirp_msg); [exact HP|].
      apply (H raw_msg); [now left | exact HP]. }
  unfold Run in *. cbn [for_each]. unfold bind. rewrite E.
  rewrite IH; [reflexivity|].
  intros r m Hin. apply H. now right.
Qed.

Lemma Run_drops_other_names_witness :
  Run [datagram 5 OFFER group_g name_b CONTROL 7000;
       {| ip := 5; content := [x43] |};
       datagram 6 REQUEST group_g name_b DATA 0] peer_a
  = (Returned tt, peer_a, []).
Proof.
  apply (Run_drops_other_names
           [datagram 5 OFFER group_g name_b CONTROL 7000;
            {| ip := 5; content := [x43] |};
            datagram 6 REQUEST group_g name_b DATA 0] peer_a).
  intros raw_msg chirp_msg [<-|[<-|[<-|[]]]] HP; cbn in HP;
    try discriminate HP; injection HP as <-; discriminate.
Defined.

(** X13: once [UnregisterDiscoverCallbacks] has run, no datagram makes the
    receive loop start a callback, whatever arrives. *)
Theorem UnregisterDiscoverCallbacks_silences
        (received : list BroadcastMessage) (this : Manager) :
  discover_callbacks_ (state_of (UnregisterDiscoverCallbacks this)) = []
  /\ Forall (fun e => is_callback e = false)
            (events_of (Run received
                            (state_of (UnregisterDiscoverCallbacks this)))).
Proof.
  split; [reflexivity|].
  eapply Forall_impl; [|apply Run_events].
  intros [msg|cb d dep]; simpl; [reflexivity | intros []].
Qed.

(** ** Discovery under changing source addresses *)

Lemma DiscoveredService_same_key (address1 address2 : Address) (h : MD5Hash)
      (id : ServiceIdentifier) (p : Port) :
  less (DiscoveredService.Build address1 h id p)
       (DiscoveredService.Build address2 h id p) = false.
Proof.
  unfold less, DiscoveredService_Less, DiscoveredService.lt. simpl.
  now rewrite MD5Hash_compare_refl, N.compare_refl, N.ltb_irrefl.
Qed.

(** X14: when an OFFER has reached the [switch], a further OFFER for the
    same name hash, identifier and port changes nothing and starts no
    callback, from whatever source address it comes; the discovered set
    keeps the entry it had. *)
Theorem Run_dispatch_OFFER_again (address1 address2 : Address) (h : MD5Hash)
        (id : ServiceIdentifier) (p : Port) (this : Manager) :
  let first := DiscoveredService.Build address1 h id p in
  let again := DiscoveredService.Build address2 h id p in
  let this1 := state_of (Run_dispatch OFFER first this) in
  Run_dispatch OFFER again this1 = (Returned tt, this1, []).
Proof.
  intros first again this1. apply Run_dispatch_OFFER_known.
  rewrite (set_contains_equiv _ first again)
    by apply DiscoveredService_same_key.
  subst this1.
  destruct (set_contains (discovered_services_ this) first) eqn:E.
  - now rewrite (Run_dispatch_OFFER_known _ _ E).
  - rewrite (Run_dispatch_OFFER_new _ _ E). cbn. apply set_contains_insert.
Qed.

(** X15: when an OFFER for a service that is not yet known has reached the
    [switch], a LEAVING for the same name hash, identifier and port, from
    whatever source address, removes the entry again: the Manager is exactly
    as before the OFFER, and every callback was started twice, first with
    the OFFER's record and [departing = false], then with the LEAVING's
    record and [departing = true]. *)
Theorem Run_dispatch_OFFER_LEAVING_roundtrip
        (address1 address2 : Address) (h : MD5Hash)
        (id : ServiceIdentifier) (p : Port) (this : Manager) :
  set_contains (discovered_services_ this)
               (DiscoveredService.Build address1 h id p) = false ->
  (Run_dispatch OFFER (DiscoveredService.Build address1 h id p) ;;
   Run_dispatch LEAVING (DiscoveredService.Build address2 h id p)) this
  = (Returned tt, this,
     map (fun cb =>
            SpawnCallback cb (DiscoveredService.Build address1 h id p) false)
         (discover_callbacks_ this)
     ++ map (fun cb =>
               SpawnCallback cb (DiscoveredService.Build address2 h id p)
                             true)
            (discover_callbacks_ this)).
Proof.
  intros H. unfold bind. rewrite (Run_dispatch_OFFER_new _ _ H).
  rewrite Run_dispatch_LEAVING_known.
  - cbn [discovered_services_ discover_callbacks_ set_discovered_services].
    rewrite set_erase_insert
      by (exact H || apply DiscoveredService_same_key).
    replace (set_discovered_services (discovered_services_ this) _)
      with this by now destruct this.
    reflexivity.
  - cbn [discovered_services_ set_discovered_services].
    rewrite (set_contains_equiv
               _ (DiscoveredService.Build address1 h id p)
               (DiscoveredService.Build address2 h id p))
      by apply DiscoveredService_same_key.
    apply set_contains_insert.
Qed.

Lemma Run_dispatch_OFFER_LEAVING_roundtrip_witness :
  set_contains (discovered_services_ peer_a)
               (DiscoveredService.Build 5 name_a CONTROL 7000) = false
  /\ (Run_dispatch OFFER (DiscoveredService.Build 5 name_a CONTROL 7000) ;;
      Run_dispatch LEAVING (DiscoveredService.Build 6 name_a CONTROL 7000))
       peer_a
     = (Returned tt, peer_a,
        [SpawnCallback (4096, 0)
                       (DiscoveredService.Build 5 name_a CONTROL 7000) false;
         SpawnCallback (4096, 0)
                       (DiscoveredService.Build 6 name_a CONTROL 7000) true]).
Proof.
  split; [reflexivity|].
  apply (Run_dispatch_OFFER_LEAVING_roundtrip
           5 6 name_a CONTROL 7000 peer_a).
  reflexivity.
Defined.

(** ** Sweeping the registered set *)

(** X16: a second [UnregisterServices] right after the first broadcasts
    nothing more, and after a sweep any service can be registered anew:
    [RegisterService] returns true, broadcasts the OFFER, and the set holds
    that service alone. *)
Theorem UnregisterServices_then (service : RegisteredService.t)
        (this : Manager) :
  (UnregisterServices ;; UnregisterServices) this = UnregisterServices this
  /\ (UnregisterServices ;; RegisterService service) this
     = (Returned true, set_registered_services [service] this,
        map (fun s => SendBroadcast (message_for this LEAVING s))
            (registered_services_ this)
        ++ [SendBroadcast (message_for this OFFER service)]).
Proof.
  split.
  - unfold bind at 1. rewrite !UnregisterServices_run.
    cbn [registered_services_ set_registered_services map].
    now rewrite app_nil_r.
  - unfold bind at 1. rewrite UnregisterServices_run.
    now rewrite RegisterService_new.
Qed.

(** ** Invariants over arbitrary sequences of calls *)

Lemma bind_ret_tt {A : Type} (c : M A) (this this1 : Manager) (a : A)
      (events : list Event) :
  c this = (Returned a, this1, events) ->
  (c ;; ret tt) this = (Returned tt, this1, events).
Proof. intros H. unfold bind. rewrite H. cbn. now rewrite app_nil_r. Qed.

Lemma stamped_message_for (this : Manager) (type : MessageType)
      (service : RegisteredService.t) :
  stamped (group_hash_ this) (name_hash_ this)
          (SendBroadcast (message_for this type service)).
Proof. now split. Qed.

Lemma stamped_replay_or_callback (this : Manager) (e : Event) :
  replay_or_callback this e ->
  stamped (group_hash_ this) (name_hash_ this) e.
Proof.
  destruct e as [msg|cb d dep]; simpl; [|trivial].
  intros (s & _ & ->). now split.
Qed.

(** What one call keeps. *)
Lemma do_call_keeps (c : Call) (this : Manager) :
  result_of (do_call c this) = Returned tt
  /\ group_hash_ (state_of (do_call c this)) = group_hash_ this
  /\ name_hash_ (state_of (do_call c this)) = name_hash_ this
  /\ (Manager_wf this = true ->
      Manager_wf (state_of (do_call c this)) = true)
  /\ Forall (stamped (group_hash_ this) (name_hash_ this))
            (events_of (do_call c this)).
Proof.
  destruct c as [service|service| | |callback data|callback data| | |raw_msg];
    cbn [do_call].
  - pose proof (Manager_wf_RegisterService service this) as W.
    rewrite (RegisterService_run service this) in W.
    rewrite (bind_ret_tt _ _ _ _ _ (RegisterService_run service this)).
    repeat split; try exact W.
    cbn [events_of snd].
    destruct (set_contains (registered_services_ this) service);
      repeat constructor.
  - pose proof (Manager_wf_UnregisterService service this) as W.
    rewrite (UnregisterService_run service this) in W.
    rewrite (bind_ret_tt _ _ _ _ _ (UnregisterService_run service this)).
    repeat split; try exact W.
    cbn [events_of snd].
    destruct (set_contains (registered_services_ this) service);
      repeat constructor.
  - pose proof (Manager_wf_UnregisterServices this) as W.
    rewrite UnregisterServices_run in *.
    repeat split; try exact W.
    cbn [events_of snd]. apply Forall_forall. intros e He.
    apply in_map_iff in He as (s & <- & _). apply stamped_message_for.
  - repeat split; trivial; constructor.
  - pose proof (Manager_wf_RegisterDiscoverCallback callback data this) as W.
    rewrite (RegisterDiscoverCallback_run callback data this) in W.
    rewrite (bind_ret_tt _ _ _ _ _
                         (RegisterDiscoverCallback_run callback data this)).
    repeat split; try exact W; constructor.
  - pose proof (Manager_wf_UnregisterDiscoverCallback callback data this)
      as W.
    rewrite (UnregisterDiscoverCallback_run callback data this) in W.
    rewrite (bind_ret_tt _ _ _ _ _
                         (UnregisterDiscoverCallback_run callback data this)).
    repeat split; try exact W; constructor.
  - repeat split; [|constructor].
    intros W. apply Manager_wf_iff in W as (Hr & Hd & Hc).
    apply Manager_wf_iff. now repeat split.
  - repeat split; trivial; constructor.
  - destruct (Run_iteration_frame raw_msg this) as (Hg & Hn & _).
    split; [apply Run_iteration_returns|].
    split; [now symmetry|]. split; [now symmetry|].
    split; [apply Manager_wf_Run_iteration|].
    eapply Forall_impl; [|apply Run_iteration_events].
    apply stamped_replay_or_callback.
Qed.

Lemma do_calls_cons (c : Call) (calls : list Call) (this : Manager) :
  do_calls (c :: calls) this
  = (result_of (do_calls calls (state_of (do_call c this))),
     state_of (do_calls calls (state_of (do_call c this))),
     events_of (do_call c this)
     ++ events_of (do_calls calls (state_of (do_call c this)))).
Proof.
  unfold do_calls. cbn [for_each]. unfold bind.
  destruct (do_call_keeps c this) as (R & _).
  destruct (do_call c this) as [[r this1] events1].
  unfold result_of in R. cbn in R. subst r. cbn [state_of events_of fst snd].
  now destruct (for_each calls do_call this1) as [[r this2] events2].
Qed.

Lemma do_calls_keep (calls : list Call) (this : Manager) :
  result_of (do_calls calls this) = Returned tt
  /\ group_hash_ (state_of (do_calls calls this)) = group_hash_ this
  /\ name_hash_ (state_of (do_calls calls this)) = name_hash_ this
  /\ (Manager_wf this = true ->
      Manager_wf (state_of (do_calls calls this)) = true)
  /\ Forall (stamped (group_hash_ this) (name_hash_ this))
            (events_of (do_calls calls this)).
Proof.
  revert this. induction calls as [|c calls IH]; intros this.
  - repeat split; trivial; constructor.
  - rewrite do_calls_cons. cbn [result_of state_of events_of fst snd].
    destruct (do_call_keeps c this) as (_ & Hg & Hn & Hw & Hs).
    destruct (IH (state_of (do_call c this))) as (R' & Hg' & Hn' & Hw' & Hs').
    rewrite Hg, Hn in *.
    repeat split; try congruence.
    + intros W. apply Hw', Hw, W.
    + apply Forall_app. now split.
Qed.

(** X17: starting from a freshly constructed Manager, after any sequence of
    calls of the registration and callback functions and of turns of the
    receive loop, in any order and on any arguments and datagrams, the three
    sets are strictly ascending under their orderings, so no set holds an
    element twice; the group and name hashes are those given at construction;
    and no call ended by an exception. *)
Theorem do_calls_keeps_sets_sorted (group_hash name_hash : MD5Hash)
        (calls : list Call) :
  let final := state_of (do_calls calls (Manager_new group_hash name_hash)) in
  result_of (do_calls calls (Manager_new group_hash name_hash)) = Returned tt
  /\ set_sorted (registered_services_ final) = true
  /\ set_sorted (discovered_services_ final) = true
  /\ set_sorted (discover_callbacks_ final) = true
  /\ NoDup (registered_services_ final)
  /\ NoDup (discovered_services_ final)
  /\ NoDup (discover_callbacks_ final)
  /\ group_hash_ final = group_hash
  /\ name_hash_ final = name_hash.
Proof.
  intros final. subst final.
  destruct (do_calls_keep calls (Manager_new group_hash name_hash))
    as (R & Hg & Hn & Hw & _).
  specialize (Hw (Manager_wf_new group_hash name_hash)).
  apply Manager_wf_iff in Hw as (Hr & Hd & Hc).
  repeat split; try assumption; now apply set_sorted_NoDup.
Qed.

(** X18: starting from a freshly constructed Manager, every broadcast sent
    during any sequence of calls and receive turns carries the group hash
    and the name hash given at construction. *)
Theorem do_calls_broadcasts_stamped (group_hash name_hash : MD5Hash)
        (calls : list Call) :
  Forall (stamped group_hash name_hash)
         (events_of (do_calls calls (Manager_new group_hash name_hash))).
Proof.
  now destruct (do_calls_keep calls (Manager_new group_hash name_hash))
    as (_ & _ & _ & _ & F).
Qed.

(** ** Broadcasts over the life of a Manager *)

Lemma count_broadcasts_app (type : MessageType)
      (service : RegisteredService.t) (events1 events2 : list Event) :
  count_broadcasts type service (events1 ++ events2)
  = (count_broadcasts type service events1
     + count_broadcasts type service events2)%nat.
Proof.
  unfold count_broadcasts. now rewrite filter_app, length_app.
Qed.

Lemma count_broadcasts_other_type (this : Manager) (type other : MessageType)
      (service : RegisteredService.t) (services : list RegisteredService.t) :
  type <> other ->
  count_broadcasts type service
    (map (fun s => SendBroadcast (message_for this other s)) services) = O.
Proof.
  intros H. unfold count_broadcasts.
  induction services as [|x services IH]; [reflexivity|].
  cbn [map filter]. unfold announces at 1. cbn [message_for Message.GetType].
  destruct (MessageType_eqb other type) eqn:E.
  - apply MessageType_eqb_eq in E. now elim H.
  - exact IH.
Qed.

Lemma count_broadcasts_registered (this : Manager) (type : MessageType)
      (service : RegisteredService.t) (services : list RegisteredService.t) :
  set_sorted services = true ->
  count_broadcasts type service
    (map (fun s => SendBroadcast (message_for this type s)) services)
  = if set_contains services service then 1%nat else O.
Proof.
  intros Hs. destruct (set_contains services service) eqn:E.
  - apply count_broadcasts_once; [now apply set_sorted_NoDup|].
    now apply RegisteredService_contains_In.
  - apply count_broadcasts_absent. intros Hin.
    apply RegisteredService_contains_In in Hin; [|exact Hs].
    rewrite Hin in E. discriminate.
Qed.

Lemma set_contains_insert_other (services : list RegisteredService.t)
      (service other : RegisteredService.t) :
  set_sorted services = true -> service <> other ->
  set_contains (fst (set_insert services other)) service
  = set_contains services service.
Proof.
  intros Hs Hne.
  pose proof (RegisteredService_contains_In
                _ service (set_sorted_insert _ other Hs)) as H1.
  pose proof (RegisteredService_contains_In _ service Hs) as H2.
  rewrite (set_insert_In_iff _ _ _ RegisteredService_equiv_eq) in H1.
  destruct (set_contains (fst (set_insert services other)) service),
    (set_contains services service); try reflexivity.
  - destruct (proj1 H1 eq_refl) as [E|Hin]; [now elim Hne|].
    symmetry. now apply H2.
  - apply H1. right. now apply H2.
Qed.

Lemma set_contains_erase_other (services : list RegisteredService.t)
      (service other : RegisteredService.t) :
  set_sorted services = true -> service <> other ->
  set_contains (fst (set_erase services other)) service
  = set_contains services service.
Proof.
  intros Hs Hne.
  pose proof (RegisteredService_contains_In
                _ service (set_sorted_erase _ other Hs)) as H1.
  pose proof (RegisteredService_contains_In _ service Hs) as H2.
  rewrite (set_erase_In_iff _ _ _ RegisteredService_equiv_eq Hs) in H1.
  destruct (set_contains (fst (set_erase services other)) service),
    (set_contains services service); try reflexivity.
  - destruct (proj1 H1 eq_refl) as [Hin _]. symmetry. now apply H2.
  - apply H1. split; [now apply H2 | exact Hne].
Qed.

Lemma RegisteredService_eq_dec (a b : RegisteredService.t) :
  {a = b} + {a <> b}.
Proof.
  destruct a as [i p], b as [j q].
  destruct (N.eq_dec p q) as [->|Hp]; [|right; congruence].
  destruct i, j; (now left) || (right; discriminate).
Qed.

Lemma count_broadcasts_replay (this : Manager) (service : RegisteredService.t)
      (events : list Event) :
  Forall (replay_or_callback this) events ->
  count_broadcasts LEAVING service events = O.
Proof.
  unfold count_broadcasts.
  induction events as [|e events IH]; intros F; [reflexivity|].
  inversion F as [|? ? He F']; subst. cbn [filter].
  destruct e as [msg|cb d dep]; simpl in *; [|now apply IH].
  destruct He as (s & _ & ->). cbn. now apply IH.
Qed.

Lemma count_broadcasts_single (this : Manager) (type wanted : MessageType)
      (service other : RegisteredService.t) :
  count_broadcasts wanted service
                   [SendBroadcast (message_for this type other)]
  = if MessageType_eqb type wanted
    then if RegisteredService_eq_dec other service then 1%nat else O
    else O.
Proof.
  destruct (MessageType_eqb type wanted) eqn:E.
  - apply MessageType_eqb_eq in E. subst wanted.
    destruct (RegisteredService_eq_dec other service) as [->|Hne].
    + apply (count_broadcasts_once this type service [service]);
        [constructor; [intros [] | constructor] | now left].
    + apply (count_broadcasts_absent this type service [other]).
      intros [H|[]]. now elim Hne.
  - apply (count_broadcasts_other_type this wanted type service [other]).
    intros ->. destruct type; discriminate.
Qed.

(** One call never withdraws more than was announced or registered. *)
Lemma do_call_accounting (c : Call) (service : RegisteredService.t)
      (this : Manager) :
  Manager_wf this = true ->
  (count_broadcasts LEAVING service (events_of (do_call c this))
   + (if set_contains (registered_services_ (state_of (do_call c this)))
                      service then 1 else 0)
   <= count_broadcasts OFFER service (events_of (do_call c this))
      + (if set_contains (registered_services_ this) service then 1 else 0)
  )%nat.
Proof.
  intros W. apply Manager_wf_iff in W as (Hs & Hd & Hc).
  destruct c as [other|other| | |callback data|callback data| | |raw_msg];
    cbn [do_call].
  - rewrite (bind_ret_tt _ _ _ _ _ (RegisterService_run other this)).
    cbn [events_of state_of fst snd registered_services_
         set_registered_services].
    destruct (set_contains (registered_services_ this) other) eqn:E.
    + rewrite (set_insert_present _ _ E). cbn. lia.
    + rewrite !count_broadcasts_single. cbn [MessageType_eqb].
      destruct (RegisteredService_eq_dec other service) as [->|Hne].
      * rewrite set_contains_insert, E. lia.
      * rewrite set_contains_insert_other by congruence. lia.
  - rewrite (bind_ret_tt _ _ _ _ _ (UnregisterService_run other this)).
    cbn [events_of state_of fst snd registered_services_
         set_registered_services].
    destruct (set_contains (registered_services_ this) other) eqn:E.
    + rewrite !count_broadcasts_single. cbn [MessageType_eqb].
      destruct (RegisteredService_eq_dec other service) as [->|Hne].
      * rewrite (set_contains_erase _ _ Hs), E. lia.
      * rewrite set_contains_erase_other by congruence. lia.
    + rewrite (set_erase_absent _ _ E). cbn. lia.
  - rewrite UnregisterServices_run.
    cbn [events_of state_of fst snd registered_services_
         set_registered_services set_contains].
    rewrite (count_broadcasts_registered _ _ _ _ Hs).
    rewrite count_broadcasts_other_type by discriminate. lia.
  - cbn. lia.
  - rewrite (bind_ret_tt _ _ _ _ _
                         (RegisterDiscoverCallback_run callback data this)).
    cbn. lia.
  - rewrite (bind_ret_tt _ _ _ _ _
                         (UnregisterDiscoverCallback_run callback data this)).
    cbn. lia.
  - cbn. lia.
  - cbn. lia.
  - destruct (Run_iteration_frame raw_msg this) as (_ & _ & Hr & _).
    rewrite <- Hr.
    rewrite (count_broadcasts_replay this service _
                                     (Run_iteration_events raw_msg this)).
    lia.
Qed.

Lemma do_calls_accounting (calls : list Call) (service : RegisteredService.t)
      (this : Manager) :
  Manager_wf this = true ->
  (count_broadcasts LEAVING service (events_of (do_calls calls this))
   + (if set_contains (registered_services_ (state_of (do_calls calls this)))
                      service then 1 else 0)
   <= count_broadcasts OFFER service (events_of (do_calls calls this))
      + (if set_contains (registered_services_ this) service then 1 else 0)
  )%nat.
Proof.
  revert this. induction calls as [|c calls IH]; intros this W.
  - cbn. lia.
  - rewrite do_calls_cons. cbn [events_of state_of fst snd].
    rewrite !count_broadcasts_app.
    pose proof (do_call_accounting c service this W) as H1.
    destruct (do_call_keeps c this) as (_ & _ & _ & Hw & _).
    pose proof (IH _ (Hw W)) as H2. lia.
Qed.

(** X19: when the calls and receive turns are made one after another, each
    returning before the next begins, then after any such sequence from the
    construction of the Manager, for every service the number of LEAVING
    broadcasts sent, plus one if the service is in the registered set, is at
    most the number of OFFER broadcasts sent for it.  ([RegisterService] and
    [UnregisterService] release the lock of the set before they broadcast,
    so two calls that overlap can send the LEAVING ahead of the OFFER it
    answers; overlapping calls are outside this statement.) *)
Theorem do_calls_offers_cover_leavings (group_hash name_hash : MD5Hash)
        (calls : list Call) (service : RegisteredService.t) :
  let r := do_calls calls (Manager_new group_hash name_hash) in
  (count_broadcasts LEAVING service (events_of r)
   + (if set_contains (registered_services_ (state_of r)) service
      then 1 else 0)
   <= count_broadcasts OFFER service (events_of r))%nat.
Proof.
  intros r. subst r.
  pose proof (do_calls_accounting calls service
                                  (Manager_new group_hash name_hash)
                                  (Manager_wf_new group_hash name_hash)) as H.
  cbn [Manager_new registered_services_ set_contains] in H. lia.
Qed.


(** ** Unregistration *)

(** C5: [UnregisterService] on a registered service erases it, returns true
    and emits exactly one broadcast, the LEAVING for it; on a service that is
    not registered it returns false, emits nothing and leaves the Manager as
    it was.  In both cases the registered set afterwards holds exactly the
    services it held before other than that one, still in ascending order,
    and nothing else of the Manager changes.  Hence true is returned, and
    the LEAVING emitted, exactly when the service was removed (in the set
    before, not in it after), and otherwise false is returned with no
    broadcast.  [UnregisterServices] leaves the registered set empty and
    the rest of the Manager as it was, and emits the LEAVING broadcasts of
    the services that were registered, one for each and none for any other
    service, in the ascending order in which the set is iterated. *)
Theorem UnregisterService_LEAVING_iff_removed
        (service : RegisteredService.t) (this : Manager) :
  set_sorted (registered_services_ this) = true ->
  let r := UnregisterService service this in
  let after := registered_services_ (state_of r) in
  let removed := In service (registered_services_ this) /\ ~ In service after in
  let leaving := fun s => SendBroadcast (message_for this LEAVING s) in
  (In service (registered_services_ this) ->
   result_of r = Returned true
   /\ events_of r = [leaving service]
   /\ ~ In service after)
  /\ (~ In service (registered_services_ this) ->
      r = (Returned false, this, []))
  /\ (forall y, In y after <->
                In y (registered_services_ this) /\ y <> service)
  /\ set_sorted after = true
  /\ state_of r = set_registered_services after this
  /\ (result_of r = Returned true <-> removed)
  /\ (events_of r = [leaving service] <-> removed)
  /\ (result_of r = Returned false <-> ~ removed)
  /\ (events_of r = [] <-> ~ removed)
  /\ UnregisterServices this
     = (Returned tt, set_registered_services [] this,
        map leaving (registered_services_ this))
  /\ (forall s, In s (registered_services_ this) ->
                count_broadcasts LEAVING s (events_of (UnregisterServices this))
                = 1%nat)
  /\ (forall s, ~ In s (registered_services_ this) ->
                count_broadcasts LEAVING s (events_of (UnregisterServices this))
                = 0%nat).
Proof.
  intros Hs r after removed leaving. subst r after removed leaving.
  assert (Hafter : forall y,
             In y (fst (set_erase (registered_services_ this) service)) <->
             In y (registered_services_ this) /\ y <> service)
    by (intros y; apply set_erase_In_iff;
        [exact RegisteredService_equiv_eq | exact Hs]).
  assert (Hsweep :
            (forall s, In s (registered_services_ this) ->
                       count_broadcasts LEAVING s
                         (events_of (UnregisterServices this)) = 1%nat)
            /\ (forall s, ~ In s (registered_services_ this) ->
                          count_broadcasts LEAVING s
                            (events_of (UnregisterServices this)) = 0%nat)).
  { rewrite UnregisterServices_run. cbn [events_of snd]. split.
    - intros s Hin. apply count_broadcasts_once; [|exact Hin].
      now apply set_sorted_NoDup.
    - intros s Hin. now apply count_broadcasts_absent. }
  destruct Hsweep as [Hone Hnone].
  destruct (set_contains (registered_services_ this) service) eqn:E.
  - assert (Hin : In service (registered_services_ this))
      by now apply RegisteredService_contains_In.
    assert (Hout : ~ In service
                     (fst (set_erase (registered_services_ this) service)))
      by (intros H; apply Hafter in H as [_ H]; now apply H).
    rewrite (UnregisterService_known _ _ E).
    cbn [result_of events_of state_of fst snd registered_services_
         set_registered_services].
    split; [now intros _|]. split; [now intros N; elim N|].
    split; [exact Hafter|].
    split; [now apply set_sorted_erase|].
    split; [reflexivity|].
    split; [now split|]. split; [now split|].
    split; [split; [discriminate | intros N; elim N; now split]|].
    split; [split; [discriminate | intros N; elim N; now split]|].
    split; [apply UnregisterServices_run|]. now split.
  - assert (Hin : ~ In service (registered_services_ this)).
    { intros Hin. apply RegisteredService_contains_In in Hin; [|exact Hs].
      rewrite Hin in E. discriminate. }
    rewrite (UnregisterService_unknown _ _ E).
    cbn [result_of events_of state_of fst snd].
    split; [now intros H|]. split; [now intros _|].
    split; [intros y; split;
            [intros H; split; [exact H | now intros ->]
            | now intros [H _]]|].
    split; [exact Hs|].
    split; [now rewrite set_registered_services_same|].
    split; [split; [discriminate | now intros [H _]]|].
    split; [split; [discriminate | now intros [H _]]|].
    split; [split; [now intros _ [H _] | reflexivity]|].
    split; [split; [now intros _ [H _] | reflexivity]|].
    split; [apply UnregisterServices_run|]. now split.
Qed.

Lemma UnregisterService_LEAVING_iff_removed_witness :
  set_sorted (registered_services_ peer_a) = true
  /\ UnregisterService control_7000 peer_a
     = (Returned true, set_registered_services [data_9000] peer_a,
        [SendBroadcast (message_for peer_a LEAVING control_7000)])
  /\ (forall y,
         In y (registered_services_
                 (state_of (UnregisterService control_7000 peer_a))) <->
         In y (registered_services_ peer_a) /\ y <> control_7000)
  /\ events_of (UnregisterServices peer_a)
     = [SendBroadcast (message_for peer_a LEAVING control_7000);
        SendBroadcast (message_for peer_a LEAVING data_9000)].
Proof.
  split; [reflexivity|].
  destruct (UnregisterService_LEAVING_iff_removed control_7000 peer_a)
    as (_ & _ & Hafter & _ & _ & _ & _ & _ & _ & Hall & _); [reflexivity|].
  split; [reflexivity|]. split; [exact Hafter|]. now rewrite Hall.
Defined.
